(** * scripts/generate_icons.py: the icon generator

    The script is one straight-line routine: it resolves two paths from its
    own location, stops when the source icon is missing, decodes the icon,
    brings it to a working size, and saves three PNG files, one ICO and one
    ICNS container.

    The embedding keeps the script's shape.  The file system is a finite map
    from paths to file contents, the imaging library (Pillow) is an interface
    the whole development is parametric in, and the script is a computation
    in a state-and-exception monad over the process state. *)

From Stdlib Require Import ZArith List Lia Ascii.
From stdpp Require Import base option list gmap strings.

Local Open Scope Z_scope.

(** ** pathlib *)

Module Pathlib.

(** A resolved absolute POSIX path, as the list of its components below
    the root. *)
Definition path : Type := list string.

(** [Path.parent]: drop the last component; the root is its own parent. *)
Definition parent (p : path) : path := removelast p.

(** [p / name] for one relative component. *)
Definition joinpath (p : path) (name : string) : path := p ++ [name].

(** [str(p)]. *)
Definition str (p : path) : string :=
  match p with
  | [] => "/"
  | _ => foldr (fun c acc => "/" +:+ c +:+ acc) EmptyString p
  end.

End Pathlib.

Export Pathlib.

Notation "p // name" := (joinpath p name) (at level 40, left associativity).

(** ** The process the script runs in *)

(** [script_file] is [Path(__file__).resolve()].  The command line and the
    environment are part of every process; the script reads neither. *)
Record process : Type := Process {
  script_file : path;
  argv : list string;
  environ : gmap string string
}.

(** [BASE_DIR = Path(__file__).resolve().parent.parent / "src-tauri" / "icons"] *)
Definition BASE_DIR (p : process) : path :=
  parent (parent (script_file p)) // "src-tauri" // "icons".

(** [SOURCE_ICON = BASE_DIR / "icon.png"] *)
Definition SOURCE_ICON (p : process) : path := BASE_DIR p // "icon.png".

(** The directory that holds the script. *)
Definition script_dir (p : process) : path := parent (script_file p).

(** The base directory as the specification words it: two levels up from
    the script's own directory, then into src-tauri/icons. *)
Definition BASE_DIR_two_up_from_dir (p : process) : path :=
  parent (parent (script_dir p)) // "src-tauri" // "icons".

(** ** The imaging library

    Pillow is not part of the repository.  The script uses five of its
    operations; the development is parametric in them.  [decode] is
    [Image.open], [convert] is [Image.convert], [resize] is [Image.resize]
    and [encode] is what [Image.save] writes for a target path, an optional
    [format=] and an optional [sizes=] keyword.  A result of [None] stands
    for an exception raised by the library.  [unfinished] is what an encoder
    that raises had written to the target by then. *)

Definition bytes : Type := list Byte.byte.

(** The resampling filters of [PIL.Image]. *)
Inductive resample : Type :=
  NEAREST | BOX | BILINEAR | HAMMING | BICUBIC | LANCZOS.

Class Imaging : Type := {
  raster : Type;
  size : raster -> Z * Z;
  decode : bytes -> option raster;
  convert : raster -> string -> option raster;
  resize : raster -> Z * Z -> resample -> raster;
  encode : raster -> path -> option string -> option (list (Z * Z)) -> option bytes;
  unfinished : raster -> path -> option string -> option (list (Z * Z)) -> bytes
}.

Section Script.

Context `{Im : Imaging}.

(** ** Process state *)

(** The library calls a run has completed, in order. *)
Inductive call : Type :=
  | COpen (p : path)
  | CConvert (src : raster) (mode : string)
  | CResize (src : raster) (sz : Z * Z) (filter : resample)
  | CSave (img : raster) (p : path) (fmt : option string)
          (sizes : option (list (Z * Z))).

(** [fs] holds the regular files, all of them readable by the process
    (directories are not modelled: the icons directory exists whenever the
    source icon does, and no output path names a directory; a path that
    exists but cannot be opened for reading is not represented), [writable]
    says which paths the process may create or overwrite, [stdout] the lines
    printed so far. *)
Record world : Type := World {
  fs : gmap path bytes;
  writable : path -> bool;
  stdout : list string;
  calls : list call
}.

Definition log_call (c : call) (w : world) : world :=
  World (fs w) (writable w) (stdout w) (calls w ++ [c]).

Definition write_file (p : path) (b : bytes) (w : world) : world :=
  World (<[p := b]> (fs w)) (writable w) (stdout w) (calls w).

Definition put_line (s : string) (w : world) : world :=
  World (fs w) (writable w) (stdout w ++ [s]) (calls w).

(** ** Exceptions and the monad *)

Inductive exn : Type :=
  | SystemExit (msg : string)
  | FileNotFoundError (p : path)
  | PermissionError (p : path)
  | ImageError.

Inductive result (A : Type) : Type :=
  | Ok (a : A)
  | Raise (e : exn).
Arguments Ok {A} a.
Arguments Raise {A} e.

Definition M (A : Type) : Type := world -> result A * world.

#[local] Instance M_ret : MRet M := fun A a w => (Ok a, w).

#[local] Instance M_bind : MBind M := fun A B f m w =>
  match m w with
  | (Ok a, w') => f a w'
  | (Raise e, w') => (Raise e, w')
  end.

Definition raise {A : Type} (e : exn) : M A := fun w => (Raise e, w).

Fixpoint for_ {A : Type} (l : list A) (body : A -> M unit) : M unit :=
  match l with
  | [] => mret tt
  | x :: l' => body x ;; for_ l' body
  end.

(** ** The operations the script calls *)

(** [Path.exists()] *)
Definition path_exists (p : path) : M bool := fun w =>
  (Ok (match fs w !! p with Some _ => true | None => false end), w).

(** [Image.open(p)].  Every file of [fs] is a readable regular file (see
    [world]), so the open fails on a missing file or on bytes that do not
    decode. *)
Definition Image_open (p : path) : M raster := fun w =>
  match fs w !! p with
  | None => (Raise (FileNotFoundError p), w)
  | Some b =>
      match decode b with
      | None => (Raise ImageError, w)
      | Some r => (Ok r, log_call (COpen p) w)
      end
  end.

(** [img.convert(mode)] *)
Definition Image_convert (img : raster) (mode : string) : M raster := fun w =>
  match convert img mode with
  | None => (Raise ImageError, w)
  | Some r => (Ok r, log_call (CConvert img mode) w)
  end.

(** [img.resize(sz, filter)] *)
Definition Image_resize (img : raster) (sz : Z * Z) (filter : resample)
  : M raster := fun w =>
  (Ok (resize img sz filter), log_call (CResize img sz filter) w).

(** What an encoder that raises leaves of its target.  The library has
    opened the target for writing by then, which empties it, and it removes
    the target again only if the open created it: a target that existed
    keeps what the encoder had written, a target that did not exist is
    gone again. *)
Definition abandon (img : raster) (p : path) (fmt : option string)
    (sizes : option (list (Z * Z))) (w : world) : world :=
  match fs w !! p with
  | Some _ => write_file p (unfinished img p fmt sizes) w
  | None => w
  end.

(** [img.save(p, format=fmt, sizes=sizes)].  The target is opened for
    writing first, then the encoder runs.  A target that cannot be opened
    is left as it was. *)
Definition Image_save (img : raster) (p : path) (fmt : option string)
    (sizes : option (list (Z * Z))) : M unit := fun w =>
  if writable w p then
    match encode img p fmt sizes with
    | None => (Raise ImageError, abandon img p fmt sizes w)
    | Some b => (Ok tt, log_call (CSave img p fmt sizes) (write_file p b w))
    end
  else (Raise (PermissionError p), w).

(** [print(s)] *)
Definition print (s : string) : M unit := fun w => (Ok tt, put_line s w).

(** ** The script *)

Definition png_targets : list (string * (Z * Z)) :=
  [ ("32x32.png", (32, 32));
    ("128x128.png", (128, 128));
    ("128x128@2x.png", (256, 256)) ].

Definition ico_sizes : list (Z * Z) :=
  [(16, 16); (24, 24); (32, 32); (48, 48); (64, 64); (128, 128); (256, 256)].

Definition icns_sizes : list (Z * Z) :=
  [(16, 16); (32, 32); (64, 64); (128, 128); (256, 256); (512, 512)].

(** [max(img.size) < 512] *)
Definition below_canvas (sz : Z * Z) : bool := Z.max (fst sz) (snd sz) <? 512.

(** Lines 13-14: ensure we start from a sufficiently large canvas. *)
Definition ensure_canvas (img : raster) : M raster :=
  if below_canvas (size img) then Image_resize img (512, 512) LANCZOS
  else mret img.

(** Lines 23-25: the loop over [png_targets.items()]. *)
Definition save_png (p : process) (img : raster) (target : string * (Z * Z))
  : M unit :=
  resized ← Image_resize img (snd target) LANCZOS;
  Image_save resized (BASE_DIR p // fst target) None None.

Definition generate_icons (p : process) : M unit :=
  found ← path_exists (SOURCE_ICON p);
  if negb found
  then raise (SystemExit ("Source icon not found: " +:+ str (SOURCE_ICON p)))
  else
    opened ← Image_open (SOURCE_ICON p);
    img ← Image_convert opened "RGBA";
    img ← ensure_canvas img;
    for_ png_targets (save_png p img);;
    Image_save img (BASE_DIR p // "icon.ico") None (Some ico_sizes);;
    Image_save img (BASE_DIR p // "icon.icns") (Some "ICNS") (Some icns_sizes);;
    print ("Generated icon assets in " +:+ str (BASE_DIR p)).

(** ** The output plan

    The five saves of the script as data: each names a file, an optional
    resize before the save, and the keywords of the save.  [emit] runs one
    of them; [outputs_plan] below shows that the script runs them in this
    order. *)

Record step : Type := Step {
  step_name : string;
  step_resize : option (Z * Z);
  step_fmt : option string;
  step_sizes : option (list (Z * Z))
}.

Definition png_step (target : string * (Z * Z)) : step :=
  Step (fst target) (Some (snd target)) None None.

Definition ico_step : step := Step "icon.ico" None None (Some ico_sizes).

Definition icns_step : step :=
  Step "icon.icns" None (Some "ICNS") (Some icns_sizes).

Definition plan : list step := map png_step png_targets ++ [ico_step; icns_step].

Definition step_path (p : process) (s : step) : path :=
  BASE_DIR p // step_name s.

(** The raster a step hands to the encoder. *)
Definition step_image (img : raster) (s : step) : raster :=
  match step_resize s with
  | Some sz => resize img sz LANCZOS
  | None => img
  end.

Definition step_bytes (p : process) (img : raster) (s : step) : option bytes :=
  encode (step_image img s) (step_path p s) (step_fmt s) (step_sizes s).

(** The resize a step makes before it saves, if any. *)
Definition step_resize_calls (img : raster) (s : step) : list call :=
  match step_resize s with
  | Some sz => [CResize img sz LANCZOS]
  | None => []
  end.

Definition step_calls (p : process) (img : raster) (s : step) : list call :=
  step_resize_calls img s
  ++ [CSave (step_image img s) (step_path p s) (step_fmt s) (step_sizes s)].

Definition emit (p : process) (img : raster) (s : step) : M unit :=
  out ← match step_resize s with
        | Some sz => Image_resize img sz LANCZOS
        | None => mret img
        end;
  Image_save out (step_path p s) (step_fmt s) (step_sizes s).

(** The world after the steps [ds] have completed, one after the other. *)
Inductive emitted (p : process) (img : raster) : list step -> world -> world -> Prop :=
  | emitted_nil w : emitted p img [] w w
  | emitted_cons s ds w b w' :
      writable w (step_path p s) = true ->
      step_bytes p img s = Some b ->
      emitted p img ds
        (World (<[step_path p s := b]> (fs w)) (writable w) (stdout w)
               (calls w ++ step_calls p img s)) w' ->
      emitted p img (s :: ds) w w'.

(** Why a step raises. *)
Definition step_fails (p : process) (img : raster) (s : step) (w : world)
    (e : exn) : Prop :=
  (writable w (step_path p s) = false /\ e = PermissionError (step_path p s))
  \/ (writable w (step_path p s) = true /\ step_bytes p img s = None
      /\ e = ImageError).

(** The files a step that raises with [e] leaves behind: an encoder that
    raised has abandoned its target. *)
Definition failed_files (p : process) (img : raster) (s : step) (e : exn)
    (w : world) : gmap path bytes :=
  match e with
  | ImageError =>
      fs (abandon (step_image img s) (step_path p s) (step_fmt s)
                  (step_sizes s) w)
  | _ => fs w
  end.

(** The world a step that raises leaves behind: its resize, if it has
    one, has completed. *)
Definition after_failed (p : process) (img : raster) (s : step) (e : exn)
    (w : world) : world :=
  World (failed_files p img s e w) (writable w) (stdout w)
        (calls w ++ step_resize_calls img s).

(** ** Derived notions used in the statements *)

(** The raster the outputs are made from. *)
Definition working (r : raster) : raster :=
  if below_canvas (size r) then resize r (512, 512) LANCZOS else r.

Definition upscale_calls (r : raster) : list call :=
  if below_canvas (size r) then [CResize r (512, 512) LANCZOS] else [].

(** The calls of a run that got as far as the steps [ds]. *)
Definition trace (p : process) (r0 r : raster) (ds : list step) : list call :=
  [COpen (SOURCE_ICON p); CConvert r0 "RGBA"] ++ upscale_calls r
  ++ flat_map (step_calls p (working r)) ds.

Definition is_upscale (c : call) : bool :=
  match c with
  | CResize _ sz _ => bool_decide (sz = (512, 512))
  | _ => false
  end.

Definition is_resize (c : call) : bool :=
  match c with CResize _ _ _ => true | _ => false end.

(** How often a run resized to the canvas size. *)
Definition upscale_count (l : list call) : nat :=
  length (List.filter is_upscale l).

(** A call made on [img] for one target: a Lanczos resize of [img] to a
    size other than the canvas size, or a save of [img] itself or of a
    Lanczos resize of [img]. *)
Definition derived (img : raster) (c : call) : Prop :=
  match c with
  | CResize src sz filter =>
      src = img /\ sz <> (512, 512) /\ filter = LANCZOS
  | CSave out _ _ _ =>
      out = img \/ exists sz, out = resize img sz LANCZOS
  | _ => False
  end.

Definition saved_path (c : call) : option path :=
  match c with CSave _ q _ _ => Some q | _ => None end.

(** The paths saved to, in order. *)
Definition saved_paths (l : list call) : list path := omap saved_path l.

(** The exceptions the script does not raise itself. *)
Definition is_fault (e : exn) : Prop :=
  match e with SystemExit _ => False | _ => True end.

(** [sub] occurs in [s]. *)
Definition contains (s sub : string) : Prop :=
  exists pre post, s = pre +:+ sub +:+ post.

(** All the ways a run can go, with the world it ends in. *)
Inductive run_spec (p : process) (w : world) : result unit -> world -> Prop :=
  | run_missing :
      fs w !! SOURCE_ICON p = None ->
      run_spec p w
        (Raise (SystemExit ("Source icon not found: " +:+ str (SOURCE_ICON p))))
        w
  | run_undecodable b :
      fs w !! SOURCE_ICON p = Some b ->
      decode b = None ->
      run_spec p w (Raise ImageError) w
  | run_unconvertible b r0 :
      fs w !! SOURCE_ICON p = Some b ->
      decode b = Some r0 ->
      convert r0 "RGBA" = None ->
      run_spec p w (Raise ImageError) (log_call (COpen (SOURCE_ICON p)) w)
  | run_stopped b r0 r ds s rest w1 e :
      fs w !! SOURCE_ICON p = Some b ->
      decode b = Some r0 ->
      convert r0 "RGBA" = Some r ->
      plan = ds ++ s :: rest ->
      emitted p (working r) ds
        (World (fs w) (writable w) (stdout w) (calls w ++ trace p r0 r [])) w1 ->
      step_fails p (working r) s w1 e ->
      run_spec p w (Raise e) (after_failed p (working r) s e w1)
  | run_done b r0 r w1 :
      fs w !! SOURCE_ICON p = Some b ->
      decode b = Some r0 ->
      convert r0 "RGBA" = Some r ->
      emitted p (working r) plan
        (World (fs w) (writable w) (stdout w) (calls w ++ trace p r0 r [])) w1 ->
      run_spec p w (Ok tt)
        (put_line ("Generated icon assets in " +:+ str (BASE_DIR p)) w1).

(** The five files of the icons directory the script produces. *)
Definition outputs (p : process) : list path :=
  [ BASE_DIR p // "32x32.png"; BASE_DIR p // "128x128.png";
    BASE_DIR p // "128x128@2x.png"; BASE_DIR p // "icon.ico";
    BASE_DIR p // "icon.icns" ].

End Script.

Arguments Ok {A} a.
Arguments Raise {A} e.
#[global] Existing Instances M_ret M_bind.

(** ** What the library's container writers embed

    The ICO and the ICNS writer belong to Pillow, not to the repository.
    The definitions of this module follow Pillow's [IcoImagePlugin._save],
    [Image.thumbnail] and [IcnsImagePlugin._save], with exact arithmetic
    where Pillow computes in floating point.  The properties that speak of
    the entries of a container take them as the contract of the library. *)

Module Pillow.

(** The order of size tuples. *)
Definition size_ltb (a b : Z * Z) : bool :=
  (fst a <? fst b) || ((fst a =? fst b) && (snd a <? snd b)).

Fixpoint insert_size (s : Z * Z) (l : list (Z * Z)) : list (Z * Z) :=
  match l with
  | [] => [s]
  | t :: l' =>
      if size_ltb s t then s :: l
      else if size_ltb t s then t :: insert_size s l'
      else l
  end.

(** [sorted(set(sizes))] *)
Definition sorted_set (sizes : list (Z * Z)) : list (Z * Z) :=
  foldr insert_size [] sizes.

Definition ceil_div (a b : Z) : Z :=
  if a mod b =? 0 then a / b else a / b + 1.

(** The size [thumbnail(box)] brings an image of size [img] to: the image
    is left alone when the box holds it, otherwise one side of the box is
    kept and the other follows the aspect ratio, taken from the floor and
    the ceiling of the exact quotient as the one nearer to the ratio (the
    floor on a tie) and never below 1. *)
Definition thumbnail_size (img box : Z * Z) : Z * Z :=
  let (w, h) := img in
  let (x, y) := box in
  if (w <=? x) && (h <=? y) then img
  else if w * y <=? x * h then
    let lo := (y * w) / h in
    let hi := ceil_div (y * w) h in
    let n := if Z.abs (w * y - lo * h) <=? Z.abs (w * y - hi * h)
             then lo else hi in
    (Z.max n 1, y)
  else
    let lo := (x * h) / w in
    let hi := ceil_div (x * h) w in
    let n := if (lo =? 0)
                || (Z.abs (w * lo - x * h) * hi <=? Z.abs (w * hi - x * h) * lo)
             then lo else hi in
    (x, Z.max n 1).

(** The ICO writer skips a size that exceeds the image in either dimension,
    or 256. *)
Definition ico_fits (img s : Z * Z) : bool :=
  negb ((fst img <? fst s) || (snd img <? snd s)
        || (256 <? fst s) || (256 <? snd s)).

(** The sizes of the frames the ICO writer embeds for an image of size
    [img] and a [sizes=] list. *)
Definition ico_frames (img : Z * Z) (sizes : list (Z * Z)) : list (Z * Z) :=
  map (thumbnail_size img) (List.filter (ico_fits img) (sorted_set sizes)).

(** The sizes of the frames the ICNS writer embeds, entry by entry (ic07
    to ic14): its own table, whatever the image and whatever [sizes=]. *)
Definition icns_frames : list (Z * Z) :=
  [(128, 128); (256, 256); (512, 512); (1024, 1024);
   (32, 32); (64, 64); (256, 256); (512, 512)].

End Pillow.

(** ** A small imaging library to run the script on

    Rasters are their dimensions only.  A file is a four-byte header (width
    and height, two bytes each, high byte first) followed by four bytes for
    each embedded frame.  The format of a save is its [format=] keyword or
    else the extension of the target; the frames are those of the writers
    above.  A raster with a side of 32768 or more is not encoded. *)

Module Tiny.

Definition byte_of (z : Z) : Byte.byte :=
  default Byte.x00 (Byte.of_N (Z.to_N z)).

Definition byte_val (b : Byte.byte) : Z := Z.of_N (Byte.to_N b).

Definition in_range (z : Z) : bool := (0 <=? z) && (z <? 32768).

Definition put16 (z : Z) : bytes := [byte_of (z / 256); byte_of (z mod 256)].

Definition put_size (s : Z * Z) : bytes := put16 (fst s) ++ put16 (snd s).

Definition size_ok (s : Z * Z) : bool := in_range (fst s) && in_range (snd s).

Fixpoint get_sizes (b : bytes) : list (Z * Z) :=
  match b with
  | w1 :: w0 :: h1 :: h0 :: rest =>
      (256 * byte_val w1 + byte_val w0, 256 * byte_val h1 + byte_val h0)
      :: get_sizes rest
  | _ => []
  end.

Definition tiny_decode (b : bytes) : option (Z * Z) :=
  match get_sizes b with
  | s :: _ => Some s
  | [] => None
  end.

Inductive format : Type := PNG | ICO | ICNS.

(** What follows the last dot of a file name. *)
Fixpoint extension (name : string) : option string :=
  match name with
  | EmptyString => None
  | String c rest =>
      match extension rest with
      | Some e => Some e
      | None => if Ascii.eqb c "."%char then Some rest else None
      end
  end.

Definition format_named (f : string) : option format :=
  if String.eqb f "PNG" || String.eqb f "png" then Some PNG
  else if String.eqb f "ICO" || String.eqb f "ico" then Some ICO
  else if String.eqb f "ICNS" || String.eqb f "icns" then Some ICNS
  else None.

Definition format_of (p : path) (fmt : option string) : option format :=
  match fmt with
  | Some f => format_named f
  | None =>
      match last p with
      | Some name =>
          match extension name with
          | Some e => format_named e
          | None => None
          end
      | None => None
      end
  end.

Definition frames (r : Z * Z) (f : format) (sizes : option (list (Z * Z)))
  : list (Z * Z) :=
  match f with
  | PNG => []
  | ICO =>
      Pillow.ico_frames r
        (default [(16, 16); (24, 24); (32, 32); (48, 48); (64, 64);
                  (128, 128); (256, 256)] sizes)
  | ICNS => Pillow.icns_frames
  end.

Definition tiny_encode (r : Z * Z) (p : path) (fmt : option string)
    (sizes : option (list (Z * Z))) : option bytes :=
  match format_of p fmt with
  | Some f =>
      if size_ok r && forallb size_ok (frames r f sizes)
      then Some (put_size r ++ concat (map put_size (frames r f sizes)))
      else None
  | None => None
  end.

(** The sizes embedded in a container: everything after the header. *)
Definition embedded (b : bytes) : list (Z * Z) := tail (get_sizes b).

#[export] Instance imaging : Imaging := {|
  raster := Z * Z;
  size := fun r => r;
  decode := tiny_decode;
  convert := fun r _ => Some r;
  resize := fun _ sz _ => sz;
  encode := tiny_encode;
  unfinished := fun _ _ _ _ => [Byte.x00; Byte.x00; Byte.x01; Byte.x00]
|}.

Definition proc : process :=
  Process ["proj"; "scripts"; "generate_icons.py"] [] ∅.

Definition icons : path := ["proj"; "src-tauri"; "icons"].

(** A disk holding one source icon of the given dimensions. *)
Definition disk (wd ht : Z) : world :=
  World {[ icons // "icon.png" := put_size (wd, ht) ]} (fun _ => true) [] [].

(** The same disk without the source icon. *)
Definition empty_disk : world := World ∅ (fun _ => true) [] [].

(** The same disk with a read-only ICO target. *)
Definition locked_disk (wd ht : Z) : world :=
  World {[ icons // "icon.png" := put_size (wd, ht) ]}
        (fun p => negb (bool_decide (p = icons // "icon.ico"))) [] [].

(** A disk holding a source icon too large for the encoder and the
    icon.ico of an earlier run. *)
Definition stale_disk : world :=
  World (<[ icons // "icon.ico" := put_size (16, 16) ]>
           {[ icons // "icon.png" := put_size (40000, 8) ]})
        (fun _ => true) [] [].

Definition small_src : bytes := put_size (64, 64).
Definition wide_src : bytes := put_size (600, 100).

(** The run on a 64x64 source and the run on a 600x100 source. *)
Definition small_run : result unit * world := generate_icons proc (disk 64 64).
Definition wide_run : result unit * world := generate_icons proc (disk 600 100).

End Tiny.

(** * Properties *)

Section Correctness.

Context `{Im : Imaging}.

Lemma elem_of_flat_map {A B : Type} (f : A -> list B) (l : list A) (y : B) :
  y ∈ flat_map f l <-> exists x, x ∈ l /\ y ∈ f x.
Proof.
  rewrite list_elem_of_In, in_flat_map.
  by setoid_rewrite list_elem_of_In.
Qed.

(** ** The monad *)

Lemma bind_Ok {A B : Type} (m : M A) (f : A -> M B) w a w1 :
  m w = (Ok a, w1) -> (m ≫= f) w = f a w1.
Proof. unfold mbind, M_bind. intros ->. reflexivity. Qed.

Lemma bind_Raise {A B : Type} (m : M A) (f : A -> M B) w e w1 :
  m w = (Raise e, w1) -> (m ≫= f) w = (Raise e, w1).
Proof. unfold mbind, M_bind. intros ->. reflexivity. Qed.

(** ** One step *)

Lemma emit_cases p img s w :
  (exists b, writable w (step_path p s) = true /\ step_bytes p img s = Some b
     /\ emit p img s w =
        (Ok tt, World (<[step_path p s := b]> (fs w)) (writable w) (stdout w)
                      (calls w ++ step_calls p img s)))
  \/ (exists e, step_fails p img s w e
        /\ emit p img s w = (Raise e, after_failed p img s e w)).
Proof.
  unfold emit, step_fails, step_bytes, step_calls, step_image, after_failed,
    failed_files, step_resize_calls.
  destruct s as [name [sz|] fmt sizes]; cbn;
    unfold mbind, M_bind, Image_resize, Image_save, mret, M_ret,
      log_call, write_file; cbn.
  - destruct (writable w (step_path p _)) eqn:Hw; cbn.
    + destruct (encode _ _ _ _) as [b|] eqn:Hb.
      * left. exists b. rewrite <- app_assoc. auto.
      * right. exists ImageError. split; [right; eauto|].
        unfold abandon, write_file, step_image. cbn.
        by destruct (fs w !! step_path p _).
    + right. eexists. split; [left; eauto|reflexivity].
  - destruct (writable w (step_path p _)) eqn:Hw; cbn.
    + destruct (encode _ _ _ _) as [b|] eqn:Hb.
      * left. exists b. auto.
      * right. exists ImageError. split; [right; eauto|].
        unfold abandon, write_file, step_image. cbn. rewrite app_nil_r.
        destruct (fs w !! step_path p _); by destruct w.
    + right. eexists. split; [left; eauto|].
      rewrite app_nil_r. by destruct w.
Qed.

(** ** The loop over the plan *)

(** Running a list of steps completes a prefix of it; the run returns
    when the prefix is the whole list and raises at the first step that
    fails. *)
Lemma for_emit_cases p img l : forall w,
  (exists w', emitted p img l w w' /\ for_ l (emit p img) w = (Ok tt, w'))
  \/ (exists ds s rest w1 e,
        l = ds ++ s :: rest /\ emitted p img ds w w1
        /\ step_fails p img s w1 e
        /\ for_ l (emit p img) w = (Raise e, after_failed p img s e w1)).
Proof.
  induction l as [|s l IH]; intros w.
  - left. exists w. split; [constructor|reflexivity].
  - cbn [for_]. destruct (emit_cases p img s w) as
      [(b & Hw & Hb & Hrun)|(e & Hfail & Hrun)].
    + rewrite (bind_Ok _ _ _ _ _ Hrun).
      destruct (IH (World (<[step_path p s := b]> (fs w)) (writable w)
                          (stdout w) (calls w ++ step_calls p img s)))
        as [(w' & Hem & Hfor)|(ds & s' & rest & w1 & e & -> & Hem & Hf & Hfor)].
      * left. exists w'. split; [econstructor; eauto|done].
      * right. exists (s :: ds), s', rest, w1, e.
        split; [done|]. split; [econstructor; eauto|]. done.
    + right. exists [], s, l, w, e.
      split; [done|]. split; [constructor|].
      split; [done|]. by rewrite (bind_Raise _ _ _ _ _ Hrun).
Qed.

Lemma emitted_run p img l w w' :
  emitted p img l w w' -> for_ l (emit p img) w = (Ok tt, w').
Proof.
  induction 1 as [w|s ds w b w' Hw Hb _ IH]; [reflexivity|].
  cbn [for_]. destruct (emit_cases p img s w) as
    [(b' & _ & Hb' & Hrun)|(e & Hfail & _)].
  - rewrite (bind_Ok _ _ _ _ _ Hrun). congruence.
  - destruct Hfail as [[? _]|(_ & ? & _)]; congruence.
Qed.

Lemma emitted_calls p img l w w' :
  emitted p img l w w' ->
  calls w' = calls w ++ flat_map (step_calls p img) l.
Proof.
  induction 1 as [w|s ds w b w' _ _ _ IH]; cbn [flat_map].
  - by rewrite app_nil_r.
  - rewrite IH. cbn [calls]. by rewrite <- app_assoc.
Qed.

Lemma emitted_writable p img l w w' :
  emitted p img l w w' -> writable w' = writable w.
Proof. induction 1; [done|]. by etrans. Qed.

Lemma emitted_stdout p img l w w' :
  emitted p img l w w' -> stdout w' = stdout w.
Proof. induction 1; [done|]. by etrans. Qed.

(** A path that is no step's target keeps its content. *)
Lemma emitted_lookup_other p img l w w' q :
  emitted p img l w w' ->
  q ∉ map (step_path p) l ->
  fs w' !! q = fs w !! q.
Proof.
  induction 1 as [w|s ds w b w' _ _ _ IH]; [done|].
  cbn [map]. intros Hq. apply not_elem_of_cons in Hq as [Hne Hq].
  rewrite IH by done. cbn [fs]. by rewrite lookup_insert_ne.
Qed.

(** A step's target holds what the step's encoder produced, as long as no
    later step has the same target. *)
Lemma emitted_lookup p img l w w' s :
  emitted p img l w w' ->
  NoDup (map (step_path p) l) ->
  s ∈ l ->
  fs w' !! step_path p s = step_bytes p img s
  /\ is_Some (step_bytes p img s).
Proof.
  induction 1 as [w|s0 ds w b w' _ Hb Hem IH]; intros Hnd Hin.
  - by apply elem_of_nil in Hin.
  - cbn [map] in Hnd. apply NoDup_cons in Hnd as [Hfresh Hnd].
    apply elem_of_cons in Hin as [->|Hin].
    + rewrite (emitted_lookup_other _ _ _ _ _ _ Hem Hfresh). cbn [fs].
      rewrite lookup_insert_eq, Hb. eauto.
    + by apply IH.
Qed.

(** Steps whose targets already hold their bytes change no file. *)
Lemma emitted_fixpoint p img l w w' :
  emitted p img l w w' ->
  (forall s, s ∈ l -> fs w !! step_path p s = step_bytes p img s) ->
  fs w' = fs w.
Proof.
  induction 1 as [w|s ds w b w' _ Hb _ IH]; intros Hfix; [done|].
  assert (Hid : <[step_path p s := b]> (fs w) = fs w).
  { apply insert_id. rewrite Hfix by left. done. }
  rewrite IH; cbn [fs]; [done|].
  intros s' Hs'. rewrite Hid. apply Hfix. by right.
Qed.

(** Steps that are all permitted and all encodable complete. *)
Lemma emitted_exists p img l : forall w,
  (forall s, s ∈ l -> writable w (step_path p s) = true
                      /\ is_Some (step_bytes p img s)) ->
  exists w', emitted p img l w w'.
Proof.
  induction l as [|s l IH]; intros w Hall.
  - exists w. constructor.
  - destruct (Hall s) as [Hw [b Hb]]; [left|].
    destruct (IH (World (<[step_path p s := b]> (fs w)) (writable w)
                        (stdout w) (calls w ++ step_calls p img s)))
      as [w' Hem].
    { intros s' Hs'. apply Hall. by right. }
    exists w'. econstructor; eauto.
Qed.

Lemma emitted_permitted p img l w w' s :
  emitted p img l w w' -> s ∈ l ->
  writable w (step_path p s) = true /\ is_Some (step_bytes p img s).
Proof.
  induction 1 as [w|s0 ds w b w' Hw Hb _ IH]; intros Hin.
  - by apply elem_of_nil in Hin.
  - apply elem_of_cons in Hin as [->|Hin]; [eauto|]. by apply IH.
Qed.

(** ** The whole run *)

(** The three PNG saves, the ICO save and the ICNS save of the script are
    the five steps of the plan, in this order. *)
Lemma outputs_plan p img (k : M unit) w :
  (for_ png_targets (save_png p img);;
   Image_save img (BASE_DIR p // "icon.ico") None (Some ico_sizes);;
   Image_save img (BASE_DIR p // "icon.icns") (Some "ICNS") (Some icns_sizes);;
   k) w
  = (for_ plan (emit p img);; k) w.
Proof.
  unfold plan, png_targets. cbn [map app for_].
  unfold emit, save_png, png_step, ico_step, icns_step, step_path.
  cbn [step_resize step_name step_fmt step_sizes fst snd].
  unfold mbind, M_bind, mret, M_ret, Image_resize.
  repeat (destruct (Image_save _ _ _ _ _) as [[[]|?] ?]; [|reflexivity]).
  reflexivity.
Qed.

Lemma ensure_canvas_run r w :
  ensure_canvas r w
  = (Ok (working r),
     World (fs w) (writable w) (stdout w) (calls w ++ upscale_calls r)).
Proof.
  unfold ensure_canvas, working, upscale_calls.
  destruct (below_canvas (size r)); cbn; [reflexivity|].
  rewrite app_nil_r. by destruct w.
Qed.

Lemma trace_start p r0 r (l : list call) :
  ((l ++ [COpen (SOURCE_ICON p)]) ++ [CConvert r0 "RGBA"]) ++ upscale_calls r
  = l ++ trace p r0 r [].
Proof. unfold trace. cbn [flat_map]. rewrite app_nil_r, <- !app_assoc. done. Qed.

(** Every run is one of the five of [run_spec]. *)
Lemma generate_icons_spec p w res w' :
  generate_icons p w = (res, w') -> run_spec p w res w'.
Proof.
  unfold generate_icons.
  erewrite bind_Ok by reflexivity.
  destruct (fs w !! SOURCE_ICON p) as [b|] eqn:Hfs; cbn [negb].
  2:{ intros [= <- <-]. by constructor. }
  destruct (decode b) as [r0|] eqn:Hdec.
  2:{ erewrite bind_Raise
        by (unfold Image_open; rewrite Hfs, Hdec; reflexivity).
      intros [= <- <-]. by econstructor. }
  erewrite bind_Ok by (unfold Image_open; rewrite Hfs, Hdec; reflexivity).
  destruct (convert r0 "RGBA") as [r|] eqn:Hconv.
  2:{ erewrite bind_Raise
        by (unfold Image_convert; rewrite Hconv; reflexivity).
      intros [= <- <-]. by econstructor. }
  erewrite bind_Ok by (unfold Image_convert; rewrite Hconv; reflexivity).
  erewrite bind_Ok by apply ensure_canvas_run.
  rewrite outputs_plan. cbn [fs writable stdout calls log_call].
  rewrite trace_start.
  match goal with |- (for_ plan _ ≫= _) ?w0 = _ -> _ =>
    destruct (for_emit_cases p (working r) plan w0)
      as [(w1 & Hem & Hfor)|(ds & s & rest & w1 & e & Hplan & Hem & Hf & Hfor)]
  end.
  - rewrite (bind_Ok _ _ _ _ _ Hfor). unfold print.
    intros [= <- <-]. by econstructor.
  - rewrite (bind_Raise _ _ _ _ _ Hfor).
    intros [= <- <-]. by econstructor.
Qed.

(** Conversely, a source that decodes and a plan that completes make a
    run that returns. *)
Lemma run_done_run p w b r0 r w1 :
  fs w !! SOURCE_ICON p = Some b ->
  decode b = Some r0 ->
  convert r0 "RGBA" = Some r ->
  emitted p (working r) plan
    (World (fs w) (writable w) (stdout w) (calls w ++ trace p r0 r [])) w1 ->
  generate_icons p w
  = (Ok tt, put_line ("Generated icon assets in " +:+ str (BASE_DIR p)) w1).
Proof.
  intros Hfs Hdec Hconv Hem. unfold generate_icons.
  erewrite bind_Ok by reflexivity.
  rewrite Hfs; cbn [negb].
  erewrite bind_Ok by (unfold Image_open; rewrite Hfs, Hdec; reflexivity).
  erewrite bind_Ok by (unfold Image_convert; rewrite Hconv; reflexivity).
  erewrite bind_Ok by apply ensure_canvas_run.
  rewrite outputs_plan. cbn [fs writable stdout calls log_call].
  rewrite trace_start.
  by rewrite (bind_Ok _ _ _ _ _ (emitted_run _ _ _ _ _ Hem)).
Qed.

(** ** Paths *)

Lemma joinpath_inj d : Inj (=) (=) (joinpath d).
Proof.
  intros a b H. unfold joinpath in H.
  apply app_inv_head in H. by injection H.
Qed.

Lemma plan_paths p : map (step_path p) plan = outputs p.
Proof. reflexivity. Qed.

Lemma outputs_NoDup p : NoDup (outputs p).
Proof.
  rewrite <- plan_paths. unfold step_path.
  change (NoDup ((joinpath (BASE_DIR p) ∘ step_name) <$> plan)).
  rewrite list_fmap_compose.
  apply (@NoDup_fmap_2 _ _ _ (joinpath_inj _)).
  by apply (bool_decide_unpack _).
Qed.

(** The source icon is none of the outputs. *)
Lemma source_not_output p : SOURCE_ICON p ∉ outputs p.
Proof.
  rewrite <- plan_paths. unfold step_path, SOURCE_ICON.
  change (BASE_DIR p // "icon.png"
            ∉ (joinpath (BASE_DIR p) ∘ step_name) <$> plan).
  rewrite list_fmap_compose.
  intros Hin. apply list_elem_of_fmap in Hin as (name & Heq & Hin).
  apply joinpath_inj in Heq. subst name.
  revert Hin. by apply (bool_decide_unpack _).
Qed.

Lemma append_empty_r (s : string) : s +:+ EmptyString = s.
Proof.
  induction s as [|c s IH]; [done|].
  change (String c (s +:+ EmptyString) = String c s). by f_equal.
Qed.

Lemma contains_suffix (pre s : string) : contains (pre +:+ s) s.
Proof. exists pre, EmptyString. by rewrite append_empty_r. Qed.

(** ** The calls of a run on a source that decodes *)

Lemma run_calls p w res w' b r0 r :
  fs w !! SOURCE_ICON p = Some b ->
  decode b = Some r0 ->
  convert r0 "RGBA" = Some r ->
  generate_icons p w = (res, w') ->
  exists ds pending,
    calls w' = calls w ++ trace p r0 r ds ++ pending
    /\ ((res = Ok tt /\ ds = plan /\ pending = [])
        \/ (exists e s rest,
              res = Raise e /\ is_fault e /\ plan = ds ++ s :: rest
              /\ pending = step_resize_calls (working r) s)).
Proof.
  intros Hfs Hdec Hconv Hrun. apply generate_icons_spec in Hrun.
  destruct Hrun as [Hfs'|b' Hfs' Hdec'|b' r0' Hfs' Hdec' Hconv'
                   |b' r0' r' ds s rest w1 e Hfs' Hdec' Hconv' Hplan Hem Hf
                   |b' r0' r' w1 Hfs' Hdec' Hconv' Hem];
    simplify_eq.
  - apply emitted_calls in Hem. cbn [calls] in Hem.
    exists ds, (step_resize_calls (working r) s). split.
    + unfold after_failed. cbn [calls]. rewrite Hem. unfold trace.
      cbn [flat_map]. by rewrite app_nil_r, <- !app_assoc.
    + right. exists e, s, rest. repeat split; try done.
      by destruct Hf as [[_ ->]|(_ & _ & ->)].
  - apply emitted_calls in Hem. cbn [calls] in Hem.
    exists plan, []. split; [|by left].
    unfold put_line. cbn [calls]. rewrite Hem. unfold trace.
    cbn [flat_map]. by rewrite !app_nil_r, <- !app_assoc.
Qed.

Lemma saved_paths_steps p img ds :
  saved_paths (flat_map (step_calls p img) ds) = map (step_path p) ds.
Proof.
  unfold saved_paths. induction ds as [|s ds IH]; [done|].
  cbn [flat_map map]. rewrite omap_app, IH.
  unfold step_calls, step_resize_calls. by destruct (step_resize s).
Qed.

Lemma saved_paths_trace p r0 r ds :
  saved_paths (trace p r0 r ds) = map (step_path p) ds.
Proof.
  rewrite <- (saved_paths_steps p (working r)).
  unfold saved_paths at 1, trace, upscale_calls. rewrite !omap_app.
  by destruct (below_canvas (size r)).
Qed.

(** ** Claims *)

(** C9 (as amended).  The base directory is the script file's resolved path
    taken two levels up, which is one level up from the directory holding
    the script, followed by src-tauri/icons; the source icon is icon.png in
    it; the command line and the environment of the process have no part in
    either path. *)
Theorem base_dir_from_script_file file args env :
  BASE_DIR (Process file args env)
    = parent (parent file) // "src-tauri" // "icons"
  /\ BASE_DIR (Process file args env)
    = parent (script_dir (Process file args env)) // "src-tauri" // "icons"
  /\ SOURCE_ICON (Process file args env)
    = BASE_DIR (Process file args env) // "icon.png"
  /\ forall args' env',
       BASE_DIR (Process file args' env') = BASE_DIR (Process file args env)
       /\ SOURCE_ICON (Process file args' env')
          = SOURCE_ICON (Process file args env).
Proof. repeat split. Qed.

(** C1.  When the source icon is missing the run ends in [SystemExit] with
    a message that contains the resolved source path, and the world is left
    exactly as it was: no file created or written, no library call made,
    nothing printed.  It is the only exit of the script's own making: on
    any world where the source icon exists, whatever is raised is a fault of
    the library or the file system. *)
Theorem missing_source_exits p w :
  fs w !! SOURCE_ICON p = None ->
  exists msg,
    generate_icons p w = (Raise (SystemExit msg), w)
    /\ contains msg (str (SOURCE_ICON p))
    /\ forall w0 e w0',
         generate_icons p w0 = (Raise e, w0') ->
         is_Some (fs w0 !! SOURCE_ICON p) ->
         is_fault e.
Proof.
  intros Hfs. eexists. split; [|split].
  - unfold generate_icons. erewrite bind_Ok by reflexivity.
    rewrite Hfs. reflexivity.
  - apply contains_suffix.
  - intros w0 e w0' Hrun [b Hb]. apply generate_icons_spec in Hrun.
    inversion Hrun as [Hfs'| | |? ? ? ? ? ? ? ? _ _ _ _ _ Hf|]; subst;
      try done; [congruence|].
    by destruct Hf as [[_ ->]|(_ & _ & ->)].
Qed.

(** C2.  A run that does not fault either returns, and then the source
    icon existed and decoded, the run saved to exactly the five output
    paths, once each and in this order, each of the five holds a file
    afterwards and no other file changed; or it stopped on the missing
    source with the world untouched.  There is no third way. *)
Theorem all_five_or_none p w res w' :
  generate_icons p w = (res, w') ->
  (forall e, res = Raise e -> ~ is_fault e) ->
  (res = Ok tt
   /\ (exists b r0 r,
         fs w !! SOURCE_ICON p = Some b /\ decode b = Some r0
         /\ convert r0 "RGBA" = Some r)
   /\ saved_paths (calls w') = saved_paths (calls w) ++ outputs p
   /\ outputs p =
        [ BASE_DIR p // "32x32.png"; BASE_DIR p // "128x128.png";
          BASE_DIR p // "128x128@2x.png"; BASE_DIR p // "icon.ico";
          BASE_DIR p // "icon.icns" ]
   /\ NoDup (outputs p)
   /\ (forall q, q ∈ outputs p -> is_Some (fs w' !! q))
   /\ (forall q, q ∉ outputs p -> fs w' !! q = fs w !! q))
  \/ (fs w !! SOURCE_ICON p = None
      /\ (exists msg, res = Raise (SystemExit msg))
      /\ w' = w).
Proof.
  intros Hrun Hnofault. pose proof Hrun as Hspec.
  apply generate_icons_spec in Hspec.
  destruct Hspec as [Hfs|b Hfs Hdec|b r0 Hfs Hdec Hconv
                    |b r0 r ds s rest w1 e Hfs Hdec Hconv Hplan Hem Hf
                    |b r0 r w1 Hfs Hdec Hconv Hem].
  - right. eauto.
  - by destruct (Hnofault ImageError).
  - by destruct (Hnofault ImageError).
  - destruct (Hnofault e); [done|].
    by destruct Hf as [[_ ->]|(_ & _ & ->)].
  - left. split; [done|]. split; [eauto 6|].
    destruct (run_calls _ _ _ _ _ _ _ Hfs Hdec Hconv Hrun)
      as (ds & pending & Hcalls & [(_ & -> & ->)|(e & ? & ? & ? & _)]);
      [|done].
    split.
    { rewrite Hcalls, app_nil_r. unfold saved_paths. rewrite omap_app.
      fold (saved_paths (trace p r0 r plan)).
      by rewrite saved_paths_trace, plan_paths. }
    split; [done|]. split; [apply outputs_NoDup|]. split.
    + intros q Hq. rewrite <- plan_paths in Hq.
      apply list_elem_of_fmap in Hq as (s & -> & Hs).
      cbn [fs put_line].
      destruct (emitted_lookup _ _ _ _ _ s Hem) as [-> ?]; try done.
      rewrite plan_paths. apply outputs_NoDup.
    + intros q Hq. cbn [fs put_line].
      rewrite (emitted_lookup_other _ _ _ _ _ q Hem); [done|].
      by rewrite plan_paths.
Qed.

Lemma plan_derived p img s :
  s ∈ plan -> Forall (derived img) (step_calls p img s).
Proof.
  intros Hs. unfold plan, png_targets in Hs. cbn [map app] in Hs.
  repeat (apply elem_of_cons in Hs as [->|Hs]);
    [..|by apply elem_of_nil in Hs];
    unfold step_calls, step_resize_calls, step_image; cbn;
    repeat (apply Forall_cons; split); try apply Forall_nil; cbn;
    try (by repeat split); eauto.
Qed.

Lemma plan_pending_derived img s :
  s ∈ plan -> Forall (derived img) (step_resize_calls img s).
Proof.
  intros Hs.
  pose proof (plan_derived (Process [] [] ∅) img s Hs) as H.
  unfold step_calls in H. by apply Forall_app in H as [H _].
Qed.

(** After the open and the convert comes the upscale, if there is one, and
    then only calls made on the working raster. *)
Lemma run_tail p w res w' b r0 r :
  fs w !! SOURCE_ICON p = Some b ->
  decode b = Some r0 ->
  convert r0 "RGBA" = Some r ->
  generate_icons p w = (res, w') ->
  exists tail,
    calls w' = calls w ++ [COpen (SOURCE_ICON p); CConvert r0 "RGBA"]
                       ++ upscale_calls r ++ tail
    /\ Forall (derived (working r)) tail
    /\ (res = Ok tt -> tail = flat_map (step_calls p (working r)) plan).
Proof.
  intros Hfs Hdec Hconv Hrun.
  destruct (run_calls _ _ _ _ _ _ _ Hfs Hdec Hconv Hrun)
    as (ds & pending & Hcalls & Hshape).
  exists (flat_map (step_calls p (working r)) ds ++ pending).
  split; [|split].
  - rewrite Hcalls. unfold trace. by rewrite <- !app_assoc.
  - assert (Hds : forall s, s ∈ ds -> s ∈ plan).
    { destruct Hshape as [(_ & -> & _)|(e & s & rest & _ & _ & -> & _)];
        [done|]. intros s' Hs'. apply elem_of_app. by left. }
    apply Forall_app. split.
    + apply Forall_flat_map, Forall_forall. intros s Hs.
      apply plan_derived. auto.
    + destruct Hshape as [(_ & _ & ->)|(e & s & rest & _ & _ & Hplan & ->)];
        [constructor|].
      apply plan_pending_derived. rewrite Hplan.
      apply elem_of_app. right. left.
  - intros ->. destruct Hshape as [(_ & -> & ->)|(e & ? & ? & ? & _)];
      [by rewrite app_nil_r|done].
Qed.

Lemma derived_not_upscale img tail :
  Forall (derived img) tail -> List.filter is_upscale tail = [].
Proof.
  induction 1 as [|c tail Hc _ IH]; [done|].
  cbn [List.filter]. rewrite IH.
  destruct c; cbn in *; try done.
  destruct Hc as (_ & Hsz & _). by rewrite bool_decide_eq_false_2.
Qed.

(** C3.  On a source that decodes to [r], a larger dimension below 512
    makes the working raster the 512x512 Lanczos resize of [r], and that
    resize is the first call after the open and the convert, ahead of every
    per-target call; a larger dimension of 512 or more leaves [r] itself as
    the working raster and no resize to the canvas size is made.  In both
    cases every later call is made on the working raster. *)
Theorem canvas_upscale_iff_below p w res w' b r0 r :
  fs w !! SOURCE_ICON p = Some b ->
  decode b = Some r0 ->
  convert r0 "RGBA" = Some r ->
  generate_icons p w = (res, w') ->
  (Z.max (fst (size r)) (snd (size r)) < 512 ->
     working r = resize r (512, 512) LANCZOS
     /\ (forall w0, fst (ensure_canvas r w0)
                    = Ok (resize r (512, 512) LANCZOS))
     /\ exists tail,
          calls w' = calls w ++ [COpen (SOURCE_ICON p); CConvert r0 "RGBA";
                                 CResize r (512, 512) LANCZOS] ++ tail
          /\ Forall (derived (resize r (512, 512) LANCZOS)) tail)
  /\ (512 <= Z.max (fst (size r)) (snd (size r)) ->
        working r = r
        /\ (forall w0, ensure_canvas r w0 = (Ok r, w0))
        /\ exists tail,
             calls w' = calls w ++ [COpen (SOURCE_ICON p); CConvert r0 "RGBA"]
                                ++ tail
             /\ Forall (derived r) tail
             /\ upscale_count tail = 0%nat).
Proof.
  intros Hfs Hdec Hconv Hrun.
  destruct (run_tail _ _ _ _ _ _ _ Hfs Hdec Hconv Hrun)
    as (tail & Hcalls & Htail & _).
  unfold working, upscale_calls in *. unfold below_canvas at 1 2.
  unfold below_canvas in Hcalls, Htail.
  split; intros Hsz.
  - apply Z.ltb_lt in Hsz. rewrite Hsz in *. split; [done|]. split.
    { intros w0. unfold ensure_canvas, below_canvas. by rewrite Hsz. }
    exists tail. by split.
  - apply Z.ltb_ge in Hsz. rewrite Hsz in *. split; [done|]. split.
    { intros w0. unfold ensure_canvas, below_canvas. by rewrite Hsz. }
    exists tail. split; [done|]. split; [done|].
    unfold upscale_count. by rewrite (derived_not_upscale _ _ Htail).
Qed.

(** The files of a run that returned: every step's target holds the bytes
    the encoder produced for that step. *)
Lemma run_ok_files p w w' b r0 r :
  fs w !! SOURCE_ICON p = Some b ->
  decode b = Some r0 ->
  convert r0 "RGBA" = Some r ->
  generate_icons p w = (Ok tt, w') ->
  forall s, s ∈ plan ->
    exists bs, fs w' !! step_path p s = Some bs
               /\ step_bytes p (working r) s = Some bs.
Proof.
  intros Hfs Hdec Hconv Hrun s Hs. apply generate_icons_spec in Hrun.
  inversion Hrun as [| | | |b' r0' r' w1 Hfs' Hdec' Hconv' Hem]; simplify_eq.
  destruct (emitted_lookup _ _ _ _ _ s Hem) as [Hl [bs Hbs]]; [|done|].
  { rewrite plan_paths. apply outputs_NoDup. }
  exists bs. cbn [fs put_line]. by rewrite Hl.
Qed.

Lemma below_canvas_ge sz :
  below_canvas sz = false <-> 512 <= Z.max (fst sz) (snd sz).
Proof. unfold below_canvas. apply Z.ltb_ge. Qed.

Section ResizeContract.

(** What the script relies on from [Image.resize]: the result has the
    requested size. *)
Hypothesis resize_size : forall r sz filter, size (resize r sz filter) = sz.

Lemma working_large r :
  512 <= Z.max (fst (size (working r))) (snd (size (working r))).
Proof.
  unfold working. destruct (below_canvas (size r)) eqn:Hb.
  - rewrite resize_size. cbn. lia.
  - by apply below_canvas_ge.
Qed.

(** C4.  In every run on a source that decodes to [r], whether it returns
    or faults, the longest dimension of the working raster is at least 512,
    every raster saved is the working raster or a Lanczos resize of it, and
    the resize to 512x512 happens exactly once when [r] is smaller and not
    at all otherwise, ahead of every per-target call. *)
Theorem outputs_from_canvas p w res w' b r0 r :
  fs w !! SOURCE_ICON p = Some b ->
  decode b = Some r0 ->
  convert r0 "RGBA" = Some r ->
  generate_icons p w = (res, w') ->
  512 <= Z.max (fst (size (working r))) (snd (size (working r)))
  /\ exists up tail,
       calls w' = calls w ++ [COpen (SOURCE_ICON p); CConvert r0 "RGBA"]
                          ++ up ++ tail
       /\ up = (if Z.max (fst (size r)) (snd (size r)) <? 512
                then [CResize r (512, 512) LANCZOS] else [])
       /\ Forall (derived (working r)) tail
       /\ upscale_count ([COpen (SOURCE_ICON p); CConvert r0 "RGBA"]
                           ++ up ++ tail)
          = if Z.max (fst (size r)) (snd (size r)) <? 512
            then 1%nat else 0%nat.
Proof.
  intros Hfs Hdec Hconv Hrun. split; [apply working_large|].
  destruct (run_tail _ _ _ _ _ _ _ Hfs Hdec Hconv Hrun)
    as (tail & Hcalls & Htail & _).
  exists (upscale_calls r), tail. repeat split; try done.
  unfold upscale_count. rewrite !List.filter_app.
  rewrite (derived_not_upscale _ _ Htail). unfold upscale_calls, below_canvas.
  by destruct (Z.max _ _ <? 512).
Qed.

(** C5.  In a run that returns, each of the three PNG targets has its own
    file, and that file holds the encoding of a Lanczos resize of the
    working raster to the target's size; the three resizes are separate
    calls on the same working raster.  The raster saved to 128x128@2x.png
    has size exactly 256x256, whatever the source. *)
Theorem png_outputs p w w' b r0 r :
  fs w !! SOURCE_ICON p = Some b ->
  decode b = Some r0 ->
  convert r0 "RGBA" = Some r ->
  generate_icons p w = (Ok tt, w') ->
  png_targets = [ ("32x32.png", (32, 32)); ("128x128.png", (128, 128));
                  ("128x128@2x.png", (256, 256)) ]
  /\ NoDup (map (fun t => BASE_DIR p // fst t) png_targets)
  /\ (forall name sz, (name, sz) ∈ png_targets ->
        exists bs,
          encode (resize (working r) sz LANCZOS) (BASE_DIR p // name)
                 None None = Some bs
          /\ fs w' !! (BASE_DIR p // name) = Some bs
          /\ size (resize (working r) sz LANCZOS) = sz
          /\ CResize (working r) sz LANCZOS ∈ calls w'
          /\ CSave (resize (working r) sz LANCZOS) (BASE_DIR p // name)
                   None None ∈ calls w')
  /\ exists bs,
       encode (resize (working r) (256, 256) LANCZOS)
              (BASE_DIR p // "128x128@2x.png") None None = Some bs
       /\ fs w' !! (BASE_DIR p // "128x128@2x.png") = Some bs
       /\ size (resize (working r) (256, 256) LANCZOS) = (256, 256).
Proof.
  intros Hfs Hdec Hconv Hrun.
  pose proof (run_ok_files _ _ _ _ _ _ Hfs Hdec Hconv Hrun) as Hfiles.
  destruct (run_tail _ _ _ _ _ _ _ Hfs Hdec Hconv Hrun)
    as (tail & Hcalls & _ & Htail). specialize (Htail eq_refl).
  assert (Hpng : forall name sz, (name, sz) ∈ png_targets ->
            png_step (name, sz) ∈ plan).
  { intros name sz Hin. unfold plan. apply elem_of_app. left.
    by apply (list_elem_of_fmap_2 png_step) in Hin. }
  split; [done|]. split; [|split].
  - pose proof (outputs_NoDup p) as Hnd.
    change (outputs p)
      with (map (fun t => BASE_DIR p // fst t) png_targets
              ++ [BASE_DIR p // "icon.ico"; BASE_DIR p // "icon.icns"]) in Hnd.
    by apply NoDup_app in Hnd as [Hnd _].
  - intros name sz Hin. pose proof (Hpng _ _ Hin) as Hs.
    destruct (Hfiles _ Hs) as (bs & Hl & Hb).
    exists bs. split; [done|]. split; [done|]. split; [apply resize_size|].
    assert (Hsub : forall c, c ∈ step_calls p (working r) (png_step (name, sz))
                     -> c ∈ calls w').
    { intros c Hc. rewrite Hcalls, Htail.
      apply elem_of_app; right. apply elem_of_app; right.
      apply elem_of_app; right. apply elem_of_flat_map. eauto. }
    split; apply Hsub; unfold step_calls, step_resize_calls; cbn.
    + left.
    + right. left.
  - destruct (Hfiles (png_step ("128x128@2x.png", (256, 256))))
      as (bs & Hl & Hb).
    { apply Hpng. unfold png_targets. do 2 right. left. }
    exists bs. split; [done|]. split; [done|]. apply resize_size.
Qed.

End ResizeContract.

(** C10.  A source that decodes to a raster whose larger dimension is at
    least 512 and whose smaller dimension is below 512 is itself the
    working raster: no resize to the canvas size is made, the three PNG
    resizes start from it and the ICO and the ICNS save receive it as it
    is, its size unchanged.  The guard looks at the larger dimension only:
    600x100 passes it, and 100 is below the embed size 128 that both size
    lists contain. *)
Theorem wide_source_kept p w res w' b r0 r :
  fs w !! SOURCE_ICON p = Some b ->
  decode b = Some r0 ->
  convert r0 "RGBA" = Some r ->
  generate_icons p w = (res, w') ->
  512 <= Z.max (fst (size r)) (snd (size r)) ->
  Z.min (fst (size r)) (snd (size r)) < 512 ->
  working r = r
  /\ Z.min (fst (size (working r))) (snd (size (working r))) < 512
  /\ (exists tail,
        calls w' = calls w ++ [COpen (SOURCE_ICON p); CConvert r0 "RGBA"]
                           ++ tail
        /\ Forall (derived r) tail
        /\ upscale_count tail = 0%nat)
  /\ (res = Ok tt ->
      calls w' = calls w ++
        [ COpen (SOURCE_ICON p); CConvert r0 "RGBA";
          CResize r (32, 32) LANCZOS;
          CSave (resize r (32, 32) LANCZOS) (BASE_DIR p // "32x32.png")
                None None;
          CResize r (128, 128) LANCZOS;
          CSave (resize r (128, 128) LANCZOS) (BASE_DIR p // "128x128.png")
                None None;
          CResize r (256, 256) LANCZOS;
          CSave (resize r (256, 256) LANCZOS)
                (BASE_DIR p // "128x128@2x.png") None None;
          CSave r (BASE_DIR p // "icon.ico") None (Some ico_sizes);
          CSave r (BASE_DIR p // "icon.icns") (Some "ICNS")
                (Some icns_sizes) ])
  /\ (below_canvas (600, 100) = false
      /\ (128, 128) ∈ ico_sizes /\ (128, 128) ∈ icns_sizes /\ 100 < 128).
Proof.
  intros Hfs Hdec Hconv Hrun Hmax Hmin.
  destruct (run_tail _ _ _ _ _ _ _ Hfs Hdec Hconv Hrun)
    as (tail & Hcalls & Htail & Hall).
  apply below_canvas_ge in Hmax.
  assert (Hwork : working r = r) by (unfold working; by rewrite Hmax).
  unfold upscale_calls in Hcalls. rewrite Hmax in Hcalls.
  rewrite Hwork in Htail, Hall.
  split; [done|]. split; [by rewrite Hwork|]. split; [|split].
  - exists tail. split; [done|]. split; [done|].
    unfold upscale_count. by rewrite (derived_not_upscale _ _ Htail).
  - intros ->. by rewrite Hcalls, (Hall eq_refl).
  - split; [done|]. unfold ico_sizes, icns_sizes.
    split; [do 5 right; left|]. split; [do 3 right; left|done].
Qed.

(** Every save of a complete run is the save of one step of the plan. *)
Lemma trace_saves p r0 r img q fmt sizes :
  CSave img q fmt sizes ∈ trace p r0 r plan ->
  exists s, s ∈ plan /\ q = step_path p s /\ img = step_image (working r) s
            /\ fmt = step_fmt s /\ sizes = step_sizes s.
Proof.
  unfold trace, upscale_calls. intros Hin.
  apply elem_of_app in Hin as [Hin|Hin].
  { repeat (apply elem_of_cons in Hin as [?|Hin]; [done|]).
    by apply elem_of_nil in Hin. }
  apply elem_of_app in Hin as [Hin|Hin].
  { destruct (below_canvas (size r)).
    - apply elem_of_cons in Hin as [?|Hin]; [done|].
      by apply elem_of_nil in Hin.
    - by apply elem_of_nil in Hin. }
  apply elem_of_flat_map in Hin as (s & Hs & Hin). exists s. split; [done|].
  unfold step_calls, step_resize_calls in Hin.
  apply elem_of_app in Hin as [Hin|Hin].
  { destruct (step_resize s).
    - apply elem_of_cons in Hin as [?|Hin]; [done|].
      by apply elem_of_nil in Hin.
    - by apply elem_of_nil in Hin. }
  apply elem_of_cons in Hin as [Heq|Hin]; [|by apply elem_of_nil in Hin].
  by injection Heq as -> -> -> ->.
Qed.

(** The resizes of a complete run: the upscale, if any, and one for each
    PNG target. *)
Lemma trace_resizes p r0 r :
  List.filter is_resize (trace p r0 r plan)
  = upscale_calls r
    ++ map (fun t => CResize (working r) (snd t) LANCZOS) png_targets.
Proof. unfold trace, upscale_calls. by destruct (below_canvas (size r)). Qed.

(** What holds for a container step of a run that returned. *)
Lemma container_output p w w' b r0 r s :
  fs w !! SOURCE_ICON p = Some b ->
  decode b = Some r0 ->
  convert r0 "RGBA" = Some r ->
  generate_icons p w = (Ok tt, w') ->
  s ∈ plan ->
  step_resize s = None ->
  (forall s', s' ∈ plan -> step_name s' = step_name s -> s' = s) ->
  exists bs l,
    fs w' !! step_path p s = Some bs
    /\ encode (working r) (step_path p s) (step_fmt s) (step_sizes s) = Some bs
    /\ calls w' = calls w ++ l
    /\ CSave (working r) (step_path p s) (step_fmt s) (step_sizes s) ∈ l
    /\ (forall img fmt sizes,
          CSave img (step_path p s) fmt sizes ∈ l ->
          img = working r /\ fmt = step_fmt s /\ sizes = step_sizes s)
    /\ List.filter is_resize l
       = upscale_calls r
         ++ map (fun t => CResize (working r) (snd t) LANCZOS) png_targets.
Proof.
  intros Hfs Hdec Hconv Hrun Hs Hnone Huniq.
  destruct (run_ok_files _ _ _ _ _ _ Hfs Hdec Hconv Hrun s Hs)
    as (bs & Hl & Hb).
  destruct (run_calls _ _ _ _ _ _ _ Hfs Hdec Hconv Hrun)
    as (ds & pending & Hcalls & [(_ & -> & ->)|(e & ? & ? & ? & _)]);
    [|done].
  rewrite app_nil_r in Hcalls.
  assert (Himg : step_image (working r) s = working r)
    by (unfold step_image; by rewrite Hnone).
  exists bs, (trace p r0 r plan).
  split; [done|]. split; [by rewrite <- Himg|]. split; [done|].
  split; [|split].
  - unfold trace. apply elem_of_app; right. apply elem_of_app; right.
    apply elem_of_flat_map. exists s. split; [done|].
    unfold step_calls. apply elem_of_app; right. rewrite Himg. left.
  - intros img fmt sizes Hin.
    apply trace_saves in Hin as (s' & Hs' & Hpath & -> & -> & ->).
    apply joinpath_inj in Hpath. rewrite (Huniq s' Hs') by done.
    by rewrite Himg.
  - apply trace_resizes.
Qed.



Section WriterContract.

(** The sizes of the frames a container file holds, and what is taken
    from the library: a resize gives the requested size, a save to icon.ico
    embeds the frames of [Pillow.ico_frames], a save with format ICNS
    embeds the frames of [Pillow.icns_frames]. *)
Variable embedded : bytes -> list (Z * Z).
Hypothesis resize_size : forall r sz filter, size (resize r sz filter) = sz.
Hypothesis ico_writer : forall img d sizes bs,
  encode img (d // "icon.ico") None (Some sizes) = Some bs ->
  embedded bs = Pillow.ico_frames (size img) sizes.
Hypothesis icns_writer : forall img q sizes bs,
  encode img q (Some "ICNS") sizes = Some bs ->
  embedded bs = Pillow.icns_frames.


(** C7, what the code does.  In a run that returns, icon.icns is saved
    once, from the working raster itself, with format ICNS and the six sizes
    16, 32, 64, 128, 256 and 512; the writer embeds the frames of its own
    table all the same: none at 16 and one at 1024. *)
Theorem icns_sizes_ignored p w w' b r0 r :
  fs w !! SOURCE_ICON p = Some b ->
  decode b = Some r0 ->
  convert r0 "RGBA" = Some r ->
  generate_icons p w = (Ok tt, w') ->
  exists bs l,
    fs w' !! (BASE_DIR p // "icon.icns") = Some bs
    /\ encode (working r) (BASE_DIR p // "icon.icns") (Some "ICNS")
         (Some [(16, 16); (32, 32); (64, 64); (128, 128); (256, 256);
                (512, 512)]) = Some bs
    /\ embedded bs = [(128, 128); (256, 256); (512, 512); (1024, 1024);
                      (32, 32); (64, 64); (256, 256); (512, 512)]
    /\ ((16, 16) ∉ embedded bs)
    /\ ((1024, 1024) ∈ embedded bs)
    /\ calls w' = calls w ++ l
    /\ CSave (working r) (BASE_DIR p // "icon.icns") (Some "ICNS")
             (Some icns_sizes) ∈ l
    /\ (forall img fmt sizes,
          CSave img (BASE_DIR p // "icon.icns") fmt sizes ∈ l ->
          img = working r /\ fmt = Some "ICNS" /\ sizes = Some icns_sizes).
Proof.
  intros Hfs Hdec Hconv Hrun.
  destruct (container_output _ _ _ _ _ _ icns_step Hfs Hdec Hconv Hrun)
    as (bs & l & Hl & Hb & Hcalls & Hin & Honly & Hres).
  - unfold plan. apply elem_of_app; right. right. left.
  - done.
  - intros s' Hs' Hname. unfold plan, png_targets in Hs'. cbn in Hs'.
    repeat (apply elem_of_cons in Hs' as [->|Hs']; [done|]).
    by apply elem_of_nil in Hs'.
  - pose proof (icns_writer _ _ _ _ Hb) as Hframes.
    exists bs, l. split; [done|]. split; [done|]. split; [done|].
    rewrite Hframes. split; [|split; [|done]].
    + unfold Pillow.icns_frames. intros Hin16.
      repeat (apply elem_of_cons in Hin16 as [[=]|Hin16]).
      by apply elem_of_nil in Hin16.
    + unfold Pillow.icns_frames. do 3 right. left.
Qed.

End WriterContract.

(** C8.  Running the script again on the files a returning run left, with
    the same permissions and the same library, returns again and leaves
    every file, the five outputs among them, with the same bytes. *)
Theorem rerun_identical p w w1 v :
  generate_icons p w = (Ok tt, w1) ->
  fs v = fs w1 ->
  writable v = writable w ->
  exists v1,
    generate_icons p v = (Ok tt, v1)
    /\ fs v1 = fs w1
    /\ forall q, q ∈ outputs p ->
         is_Some (fs w1 !! q) /\ fs v1 !! q = fs w1 !! q.
Proof.
  intros Hrun Hfs Hperm. pose proof Hrun as Hspec.
  apply generate_icons_spec in Hspec.
  inversion Hspec as [| | | |b r0 r w1' Hsrc Hdec Hconv Hem Hres Hw1];
    subst w1.
  cbn [fs put_line] in Hfs.
  assert (Hnd : NoDup (map (step_path p) plan))
    by (rewrite plan_paths; apply outputs_NoDup).
  assert (Hsrc' : fs v !! SOURCE_ICON p = Some b).
  { rewrite Hfs, (emitted_lookup_other _ _ _ _ _ _ Hem); [done|].
    rewrite plan_paths. apply source_not_output. }
  destruct (emitted_exists p (working r) plan
              (World (fs v) (writable v) (stdout v)
                     (calls v ++ trace p r0 r [])))
    as [v1' Hem'].
  { intros s Hs. cbn [writable]. rewrite Hperm.
    apply (emitted_permitted _ _ _ _ _ s Hem Hs). }
  assert (Hsame : fs v1' = fs w1').
  { rewrite <- Hfs. apply (emitted_fixpoint _ _ _ _ _ Hem').
    intros s Hs. cbn [fs]. rewrite Hfs.
    by destruct (emitted_lookup _ _ _ _ _ s Hem Hnd Hs). }
  eexists. split; [by apply (run_done_run _ _ _ _ _ _ Hsrc' Hdec Hconv Hem')|].
  cbn [fs put_line]. split; [done|].
  intros q Hq. rewrite Hsame. split; [|done].
  rewrite <- plan_paths in Hq. apply list_elem_of_fmap in Hq as (s & -> & Hs).
  destruct (emitted_lookup _ _ _ _ _ s Hem Hnd Hs) as [-> ?]. done.
Qed.

End Correctness.

(** * The small library: its contracts, and the claims run on it *)

Module TinyFacts.
Import Tiny.

Lemma byte_roundtrip z : 0 <= z < 256 -> byte_val (byte_of z) = z.
Proof.
  intros Hz. unfold byte_val, byte_of.
  destruct (Byte.of_N (Z.to_N z)) as [b|] eqn:Hb.
  - apply Byte.to_of_N in Hb. cbn. rewrite Hb. lia.
  - apply Byte.of_N_None_iff in Hb. lia.
Qed.

Lemma get_put16 z :
  in_range z = true ->
  256 * byte_val (byte_of (z / 256)) + byte_val (byte_of (z mod 256)) = z.
Proof.
  unfold in_range. intros Hz. apply andb_prop in Hz as [H0 H1].
  apply Z.leb_le in H0. apply Z.ltb_lt in H1.
  rewrite !byte_roundtrip.
  - symmetry. apply Z.div_mod. lia.
  - apply Z.mod_pos_bound. lia.
  - split; [apply Z.div_pos; lia|apply Z.div_lt_upper_bound; lia].
Qed.

Lemma get_put_size s rest :
  size_ok s = true -> get_sizes (put_size s ++ rest) = s :: get_sizes rest.
Proof.
  unfold size_ok. intros Hs. apply andb_prop in Hs as [Hw Hh].
  destruct s as [wd ht]. cbn [fst snd] in *.
  unfold put_size, put16. cbn [fst snd app get_sizes].
  by rewrite (get_put16 wd Hw), (get_put16 ht Hh).
Qed.

Lemma get_put_sizes ss :
  forallb size_ok ss = true -> get_sizes (concat (map put_size ss)) = ss.
Proof.
  induction ss as [|s ss IH]; [done|].
  cbn [forallb map concat]. intros Hs. apply andb_prop in Hs as [Hs Hss].
  by rewrite (get_put_size s _ Hs), IH.
Qed.

(** The small library embeds the frames of its writers. *)
Lemma tiny_frames_embedded (img : raster) q fmt sizes bs f :
  format_of q fmt = Some f ->
  encode img q fmt sizes = Some bs ->
  embedded bs = frames img f sizes.
Proof.
  intros Hf. cbn [encode imaging]. unfold tiny_encode. rewrite Hf.
  destruct (size_ok img && forallb size_ok (frames img f sizes)) eqn:Hok;
    [|done].
  apply andb_prop in Hok as [Himg Hss]. intros Hbs.
  apply (inj Some) in Hbs. subst bs.
  unfold embedded. by rewrite (get_put_size _ _ Himg), (get_put_sizes _ Hss).
Qed.


(** The small library keeps the contract of the ICNS writer. *)
Lemma tiny_icns_writer (img : raster) q sizes bs :
  encode img q (Some "ICNS") sizes = Some bs ->
  embedded bs = Pillow.icns_frames.
Proof. by apply (tiny_frames_embedded img q (Some "ICNS") sizes bs ICNS). Qed.

(** The small library keeps the resize contract. *)
Lemma tiny_resize_size (r : raster) sz filter : size (resize r sz filter) = sz.
Proof. reflexivity. Qed.

(** Both sample runs return. *)
Lemma small_run_returns :
  generate_icons proc (disk 64 64) = (Ok tt, snd small_run).
Proof.
  assert (H : fst small_run = Ok tt) by (vm_compute; reflexivity).
  unfold small_run in *.
  destruct (generate_icons proc (disk 64 64)) as [res w']. cbn in *.
  by subst res.
Qed.

Lemma wide_run_returns :
  generate_icons proc (disk 600 100) = (Ok tt, snd wide_run).
Proof.
  assert (H : fst wide_run = Ok tt) by (vm_compute; reflexivity).
  unfold wide_run in *.
  destruct (generate_icons proc (disk 600 100)) as [res w']. cbn in *.
  by subst res.
Qed.

End TinyFacts.

Section Runs.
Import Tiny.

(** C9, the counterexample.  For the script at /proj/scripts/generate_icons.py
    the base directory is /proj/src-tauri/icons; two levels up from the
    script's own directory /proj/scripts would give /src-tauri/icons. *)
Lemma base_dir_two_up_from_dir_fails :
  script_dir proc = ["proj"; "scripts"]
  /\ BASE_DIR proc = ["proj"; "src-tauri"; "icons"]
  /\ BASE_DIR_two_up_from_dir proc = ["src-tauri"; "icons"]
  /\ BASE_DIR proc <> BASE_DIR_two_up_from_dir proc.
Proof. repeat split. discriminate. Qed.

(** A fault half-way leaves a partial set: with icon.ico read-only the
    run raises at the ICO save, after the three PNG files were written. *)
Example fault_leaves_partial_outputs :
  fst (generate_icons proc (locked_disk 700 700))
    = Raise (PermissionError (icons // "icon.ico"))
  /\ saved_paths (calls (snd (generate_icons proc (locked_disk 700 700))))
     = [icons // "32x32.png"; icons // "128x128.png";
        icons // "128x128@2x.png"]
  /\ fs (snd (generate_icons proc (locked_disk 700 700)))
        !! (icons // "icon.icns") = None.
Proof. repeat split; vm_compute; reflexivity. Qed.

(** An encoder that raises has already opened its target: the run on a
    source too large for the ICO encoder writes the three PNG files and
    leaves the icon.ico of the earlier run cut down to what the encoder had
    written. *)
Example encoder_fault_truncates_target :
  fst (generate_icons proc stale_disk) = Raise ImageError
  /\ fs stale_disk !! (icons // "icon.ico") = Some (put_size (16, 16))
  /\ fs (snd (generate_icons proc stale_disk)) !! (icons // "icon.ico")
     = Some [Byte.x00; Byte.x00; Byte.x01; Byte.x00]
  /\ is_Some (fs (snd (generate_icons proc stale_disk))
                !! (icons // "128x128@2x.png"))
  /\ fs (snd (generate_icons proc stale_disk)) !! (icons // "icon.icns")
     = None.
Proof.
  split; [vm_compute; reflexivity|]. split; [vm_compute; reflexivity|].
  split; [vm_compute; reflexivity|]. split; [|vm_compute; reflexivity].
  apply (bool_decide_unpack _). vm_compute. reflexivity.
Qed.

Lemma missing_source_exits_witness :
  exists msg,
    generate_icons proc empty_disk = (Raise (SystemExit msg), empty_disk)
    /\ contains msg "/proj/src-tauri/icons/icon.png".
Proof.
  destruct (missing_source_exits proc empty_disk) as (msg & Hrun & Hmsg & _).
  - vm_compute. reflexivity.
  - exists msg. split; [exact Hrun|exact Hmsg].
Defined.

Lemma all_five_or_none_witness :
  saved_paths (calls (snd small_run)) = outputs proc.
Proof.
  destruct (all_five_or_none proc (disk 64 64) (Ok tt) (snd small_run))
    as [(_ & _ & H & _)|(H & _)].
  - exact TinyFacts.small_run_returns.
  - intros e He. discriminate He.
  - exact H.
  - vm_compute in H. discriminate H.
Defined.

Lemma canvas_upscale_iff_below_witness :
  exists tail,
    calls (snd small_run)
    = [COpen (icons // "icon.png"); CConvert (64, 64) "RGBA";
       CResize (64, 64) (512, 512) LANCZOS] ++ tail
    /\ Forall (derived (512, 512)) tail.
Proof.
  destruct (canvas_upscale_iff_below proc (disk 64 64) (Ok tt) (snd small_run)
              small_src (64, 64) (64, 64)) as [Hlt _].
  - vm_compute. reflexivity.
  - vm_compute. reflexivity.
  - vm_compute. reflexivity.
  - exact TinyFacts.small_run_returns.
  - destruct Hlt as (_ & _ & tail & Hcalls & Htail).
    + vm_compute. reflexivity.
    + exists tail. split; [exact Hcalls|exact Htail].
Defined.

Lemma outputs_from_canvas_witness :
  upscale_count (calls (snd small_run)) = 1%nat
  /\ 512 <= Z.max (fst (size (working (64, 64)))) (snd (size (working (64, 64)))).
Proof.
  destruct (outputs_from_canvas TinyFacts.tiny_resize_size proc (disk 64 64)
              (Ok tt) (snd small_run) small_src (64, 64) (64, 64))
    as (Hlarge & up & tail & Hcalls & _ & _ & Hcount).
  - vm_compute. reflexivity.
  - vm_compute. reflexivity.
  - vm_compute. reflexivity.
  - exact TinyFacts.small_run_returns.
  - split; [|exact Hlarge]. rewrite Hcalls. exact Hcount.
Defined.

Lemma png_outputs_witness :
  exists bs,
    fs (snd small_run) !! (icons // "128x128@2x.png") = Some bs
    /\ size (resize (working (64, 64)) (256, 256) LANCZOS) = (256, 256).
Proof.
  destruct (png_outputs TinyFacts.tiny_resize_size proc (disk 64 64)
              (snd small_run) small_src (64, 64) (64, 64))
    as (_ & _ & _ & bs & _ & Hfile & Hsize).
  - vm_compute. reflexivity.
  - vm_compute. reflexivity.
  - vm_compute. reflexivity.
  - exact TinyFacts.small_run_returns.
  - exists bs. split; [exact Hfile|exact Hsize].
Defined.



Lemma icns_sizes_ignored_witness :
  exists bs,
    fs (snd small_run) !! (icons // "icon.icns") = Some bs
    /\ (16, 16) ∉ embedded bs.
Proof.
  destruct (icns_sizes_ignored embedded TinyFacts.tiny_icns_writer proc
              (disk 64 64) (snd small_run) small_src (64, 64) (64, 64))
    as (bs & l & Hfile & _ & _ & Hno16 & _).
  - vm_compute. reflexivity.
  - vm_compute. reflexivity.
  - vm_compute. reflexivity.
  - exact TinyFacts.small_run_returns.
  - exists bs. split; [exact Hfile|exact Hno16].
Defined.

Lemma rerun_identical_witness :
  exists v1,
    generate_icons proc (snd small_run) = (Ok tt, v1)
    /\ fs v1 = fs (snd small_run).
Proof.
  destruct (rerun_identical proc (disk 64 64) (snd small_run) (snd small_run))
    as (v1 & Hrun & Hfs & _).
  - exact TinyFacts.small_run_returns.
  - reflexivity.
  - vm_compute. reflexivity.
  - exists v1. split; [exact Hrun|exact Hfs].
Defined.

Lemma wide_source_kept_witness :
  working (600, 100) = (600, 100)
  /\ calls (snd wide_run) =
       [ COpen (icons // "icon.png"); CConvert (600, 100) "RGBA";
         CResize (600, 100) (32, 32) LANCZOS;
         CSave (32, 32) (icons // "32x32.png") None None;
         CResize (600, 100) (128, 128) LANCZOS;
         CSave (128, 128) (icons // "128x128.png") None None;
         CResize (600, 100) (256, 256) LANCZOS;
         CSave (256, 256) (icons // "128x128@2x.png") None None;
         CSave (600, 100) (icons // "icon.ico") None (Some ico_sizes);
         CSave (600, 100) (icons // "icon.icns") (Some "ICNS")
               (Some icns_sizes) ].
Proof.
  destruct (wide_source_kept proc (disk 600 100) (Ok tt) (snd wide_run)
              wide_src (600, 100) (600, 100))
    as (Hwork & _ & _ & Hcalls & _).
  - vm_compute. reflexivity.
  - vm_compute. reflexivity.
  - vm_compute. reflexivity.
  - exact TinyFacts.wide_run_returns.
  - vm_compute. discriminate.
  - vm_compute. reflexivity.
  - split; [exact Hwork|exact (Hcalls eq_refl)].
Defined.

End Runs.

(** * Further properties of the script *)

Section Further.

Context `{Im : Imaging}.

Lemma saved_paths_pending img s : saved_paths (step_resize_calls img s) = [].
Proof. unfold step_resize_calls. by destruct (step_resize s). Qed.

(** What the run of a source that decodes and then stops at a step leaves
    behind, in terms of the output paths. *)
Lemma stopped_outputs p w r0 r ds s rest w1 :
  plan = ds ++ s :: rest ->
  emitted p (working r) ds
    (World (fs w) (writable w) (stdout w) (calls w ++ trace p r0 r [])) w1 ->
  outputs p
    = map (step_path p) ds ++ step_path p s :: map (step_path p) rest
  /\ saved_paths (calls w1)
     = saved_paths (calls w) ++ map (step_path p) ds
  /\ (forall q, q ∈ map (step_path p) ds -> is_Some (fs w1 !! q))
  /\ (forall q, q ∈ step_path p s :: map (step_path p) rest ->
        fs w1 !! q = fs w !! q)
  /\ writable w1 = writable w
  /\ stdout w1 = stdout w.
Proof.
  intros Hplan Hem.
  assert (Hout : outputs p
            = map (step_path p) ds ++ step_path p s :: map (step_path p) rest).
  { by rewrite <- plan_paths, Hplan, map_app. }
  pose proof (outputs_NoDup p) as Hnd. rewrite Hout in Hnd.
  apply NoDup_app in Hnd as (Hnd1 & Hdisj & _).
  split; [done|]. split; [|split; [|split; [|split]]].
  - rewrite (emitted_calls _ _ _ _ _ Hem). cbn [calls].
    unfold saved_paths. rewrite <- app_assoc, !omap_app.
    fold (saved_paths (trace p r0 r [])).
    fold (saved_paths (flat_map (step_calls p (working r)) ds)).
    by rewrite saved_paths_trace, saved_paths_steps.
  - intros q Hq. apply list_elem_of_fmap in Hq as (s' & -> & Hs').
    by destruct (emitted_lookup _ _ _ _ _ s' Hem Hnd1 Hs') as [-> ?].
  - intros q Hq. rewrite (emitted_lookup_other _ _ _ _ _ q Hem); [done|].
    intros Hin. by apply (Hdisj q).
  - by rewrite (emitted_writable _ _ _ _ _ Hem).
  - by rewrite (emitted_stdout _ _ _ _ _ Hem).
Qed.

(** A step that raises touches no file but its own target. *)
Lemma failed_files_other p img s e w q :
  q <> step_path p s -> failed_files p img s e w !! q = fs w !! q.
Proof.
  intros Hq. unfold failed_files, abandon. destruct e; try done.
  destruct (fs w !! step_path p s); [|done].
  cbn [fs write_file]. by rewrite lookup_insert_ne.
Qed.

(** What a step that raises leaves in its own target. *)
Lemma failed_files_target p img s e w :
  step_fails p img s w e ->
  (e = PermissionError (step_path p s)
   /\ writable w (step_path p s) = false
   /\ failed_files p img s e w !! step_path p s = fs w !! step_path p s)
  \/ (e = ImageError
      /\ writable w (step_path p s) = true
      /\ step_bytes p img s = None
      /\ failed_files p img s e w !! step_path p s
         = match fs w !! step_path p s with
           | Some _ => Some (unfinished (step_image img s) (step_path p s)
                                        (step_fmt s) (step_sizes s))
           | None => None
           end).
Proof.
  intros [[Hw ->]|(Hw & Hb & ->)]; [left; done|right].
  split; [done|]. split; [done|]. split; [done|].
  unfold failed_files, abandon.
  destruct (fs w !! step_path p s) eqn:Hold; [|done].
  cbn [fs write_file]. by rewrite lookup_insert_eq.
Qed.

(** X1.  The confirmation line is printed exactly by the runs that return:
    a returning run appends the one line "Generated icon assets in" followed
    by the base directory, and a run that raises prints nothing. *)
Theorem confirmation_iff_returns p w res w' :
  generate_icons p w = (res, w') ->
  (res = Ok tt
   /\ stdout w' = stdout w ++ ["Generated icon assets in " +:+ str (BASE_DIR p)]
   /\ contains ("Generated icon assets in " +:+ str (BASE_DIR p))
               (str (BASE_DIR p)))
  \/ (exists e, res = Raise e /\ stdout w' = stdout w).
Proof.
  intros Hrun. apply generate_icons_spec in Hrun.
  destruct Hrun as [Hfs|b Hfs Hdec|b r0 Hfs Hdec Hconv
                   |b r0 r ds s rest w1 e Hfs Hdec Hconv Hplan Hem Hf
                   |b r0 r w1 Hfs Hdec Hconv Hem].
  - right. eauto.
  - right. eauto.
  - right. eauto.
  - right. exists e. split; [done|]. cbn [stdout after_failed].
    by rewrite (emitted_stdout _ _ _ _ _ Hem).
  - left. split; [done|]. split; [|apply contains_suffix].
    cbn [stdout put_line]. by rewrite (emitted_stdout _ _ _ _ _ Hem).
Qed.

(** X2.  No run, whether it returns, exits or faults half-way, changes a
    file other than the five outputs; in particular the source icon keeps
    its bytes. *)
Theorem only_outputs_change p w res w' :
  generate_icons p w = (res, w') ->
  (forall q, q ∉ outputs p -> fs w' !! q = fs w !! q)
  /\ fs w' !! SOURCE_ICON p = fs w !! SOURCE_ICON p.
Proof.
  intros Hrun.
  assert (Hother : forall q, q ∉ outputs p -> fs w' !! q = fs w !! q).
  { intros q Hq. apply generate_icons_spec in Hrun.
    destruct Hrun as [Hfs|b Hfs Hdec|b r0 Hfs Hdec Hconv
                     |b r0 r ds s rest w1 e Hfs Hdec Hconv Hplan Hem Hf
                     |b r0 r w1 Hfs Hdec Hconv Hem]; try done.
    - cbn [fs after_failed]. rewrite failed_files_other.
      + rewrite (emitted_lookup_other _ _ _ _ _ q Hem); [done|].
        intros Hin. apply Hq. rewrite <- plan_paths, Hplan, map_app.
        apply elem_of_app. by left.
      + intros ->. apply Hq. rewrite <- plan_paths, Hplan, map_app.
        apply elem_of_app. right. left.
    - cbn [fs put_line].
      rewrite (emitted_lookup_other _ _ _ _ _ q Hem); [done|].
      by rewrite plan_paths. }
  split; [done|]. apply Hother, source_not_output.
Qed.

(** X3.  A run that faults after the source decoded has written a proper
    prefix of the five outputs, in their order: the files of the prefix
    exist and the outputs after the one it stopped at are as they were.
    When the output it stopped at could not be opened for writing, the
    exception is its permission error and that file is as it was.  When its
    encoder raised, the target had been opened for writing before: a target
    that did not exist is absent again, and a target that existed has lost
    its old content and holds what the encoder had written by then. *)
Theorem fault_leaves_prefix p w e w' b r0 r :
  fs w !! SOURCE_ICON p = Some b ->
  decode b = Some r0 ->
  convert r0 "RGBA" = Some r ->
  generate_icons p w = (Raise e, w') ->
  exists ds s rest,
    plan = ds ++ s :: rest
    /\ outputs p
       = map (step_path p) ds ++ step_path p s :: map (step_path p) rest
    /\ saved_paths (calls w') = saved_paths (calls w) ++ map (step_path p) ds
    /\ (forall q, q ∈ map (step_path p) ds -> is_Some (fs w' !! q))
    /\ (forall q, q ∈ map (step_path p) rest -> fs w' !! q = fs w !! q)
    /\ ((e = PermissionError (step_path p s)
         /\ writable w (step_path p s) = false
         /\ fs w' !! step_path p s = fs w !! step_path p s)
        \/ (e = ImageError
            /\ writable w (step_path p s) = true
            /\ encode (step_image (working r) s) (step_path p s)
                       (step_fmt s) (step_sizes s) = None
            /\ fs w' !! step_path p s
               = match fs w !! step_path p s with
                 | Some _ =>
                     Some (unfinished (step_image (working r) s)
                                      (step_path p s) (step_fmt s)
                                      (step_sizes s))
                 | None => None
                 end)).
Proof.
  intros Hfs Hdec Hconv Hrun. apply generate_icons_spec in Hrun.
  inversion Hrun as [| | |b' r0' r' ds s rest w1 e' Hfs' Hdec' Hconv' Hplan
                          Hem Hf|]; subst; try congruence.
  assert (r' = r) as -> by congruence.
  assert (r0' = r0) as -> by congruence.
  destruct (stopped_outputs _ _ _ _ _ _ _ _ Hplan Hem)
    as (Hout & Hsaved & Hwritten & Hlater & Hperm & _).
  pose proof (outputs_NoDup p) as Hnd. rewrite Hout in Hnd.
  apply NoDup_app in Hnd as (_ & Hdisj & Hnd).
  apply NoDup_cons in Hnd as [Hfresh _].
  exists ds, s, rest.
  split; [done|]. split; [done|]. split; [|split; [|split]].
  - cbn [calls after_failed]. unfold saved_paths. rewrite omap_app.
    fold (saved_paths (calls w1)).
    fold (saved_paths (step_resize_calls (working r) s)).
    by rewrite saved_paths_pending, app_nil_r.
  - intros q Hq. cbn [fs after_failed]. rewrite failed_files_other.
    + by apply Hwritten.
    + intros ->. apply (Hdisj (step_path p s)); [done|left].
  - intros q Hq. cbn [fs after_failed]. rewrite failed_files_other.
    + apply Hlater. by right.
    + by intros ->.
  - assert (Hsame : fs w1 !! step_path p s = fs w !! step_path p s)
      by (apply Hlater; left).
    cbn [fs after_failed].
    destruct (failed_files_target _ _ _ _ _ Hf)
      as [(-> & Hw & Hfile)|(-> & Hw & Hb & Hfile)]; [left|right].
    + split; [done|]. split; [by rewrite <- Hperm|]. by rewrite Hfile.
    + split; [done|]. split; [by rewrite <- Hperm|]. split; [done|].
      by rewrite Hfile, Hsame.
Qed.

(** X4.  A source icon that exists but does not decode, or does not
    convert to RGBA, ends the run in an image error before any output: no
    file is written, nothing is saved and nothing is printed. *)
Theorem undecodable_source_writes_nothing p w b :
  fs w !! SOURCE_ICON p = Some b ->
  (decode b = None
   \/ exists r0, decode b = Some r0 /\ convert r0 "RGBA" = None) ->
  exists w',
    generate_icons p w = (Raise ImageError, w')
    /\ fs w' = fs w
    /\ saved_paths (calls w') = saved_paths (calls w)
    /\ stdout w' = stdout w.
Proof.
  intros Hfs Hbad.
  destruct (generate_icons p w) as [res w'] eqn:Hrun.
  apply generate_icons_spec in Hrun.
  destruct Hrun as [Hfs'|b' Hfs' Hdec'|b' r0' Hfs' Hdec' Hconv'
                   |b' r0' r' ds s rest w1 e Hfs' Hdec' Hconv' Hplan Hem Hf
                   |b' r0' r' w1 Hfs' Hdec' Hconv' Hem];
    try congruence.
  - eauto.
  - exists (log_call (COpen (SOURCE_ICON p)) w). repeat split.
    unfold saved_paths, log_call. cbn [calls]. rewrite omap_app.
    by rewrite app_nil_r.
  - exfalso. destruct Hbad as [Hnone|(r0 & Hsome & Hnone)]; congruence.
  - exfalso. destruct Hbad as [Hnone|(r0 & Hsome & Hnone)]; congruence.
Qed.

(** X5.  The five outputs of a returning run are made from the source icon
    alone: two returning runs on worlds that hold the same source icon leave
    the same bytes in each of the five outputs, whatever else the worlds
    held, old outputs included. *)
Theorem outputs_from_source_only p w1 w1' w2 w2' :
  fs w1 !! SOURCE_ICON p = fs w2 !! SOURCE_ICON p ->
  generate_icons p w1 = (Ok tt, w1') ->
  generate_icons p w2 = (Ok tt, w2') ->
  forall q, q ∈ outputs p ->
    fs w1' !! q = fs w2' !! q /\ is_Some (fs w1' !! q).
Proof.
  intros Hsame Hrun1 Hrun2 q Hq. pose proof Hrun1 as Hspec.
  apply generate_icons_spec in Hspec.
  inversion Hspec as [| | | |b r0 r w1'' Hfs Hdec Hconv _]; subst.
  assert (Hfs2 : fs w2 !! SOURCE_ICON p = Some b) by by rewrite <- Hsame.
  rewrite <- plan_paths in Hq. apply list_elem_of_fmap in Hq as (s & -> & Hs).
  destruct (run_ok_files _ _ _ _ _ _ Hfs Hdec Hconv Hrun1 s Hs)
    as (bs1 & Hl1 & Hb1).
  destruct (run_ok_files _ _ _ _ _ _ Hfs2 Hdec Hconv Hrun2 s Hs)
    as (bs2 & Hl2 & Hb2).
  rewrite Hl1, Hl2. split; [congruence|eauto].
Qed.

(** X6.  What a returning run needed: the source icon exists, decodes and
    converts to RGBA, each of the five output paths is writable, and the
    encoder accepted each of the five saves. *)
Theorem returns_only_if p w w' :
  generate_icons p w = (Ok tt, w') ->
  exists b r0 r,
    fs w !! SOURCE_ICON p = Some b
    /\ decode b = Some r0
    /\ convert r0 "RGBA" = Some r
    /\ (forall q, q ∈ outputs p -> writable w q = true)
    /\ is_Some (encode (resize (working r) (32, 32) LANCZOS)
                       (BASE_DIR p // "32x32.png") None None)
    /\ is_Some (encode (resize (working r) (128, 128) LANCZOS)
                       (BASE_DIR p // "128x128.png") None None)
    /\ is_Some (encode (resize (working r) (256, 256) LANCZOS)
                       (BASE_DIR p // "128x128@2x.png") None None)
    /\ is_Some (encode (working r) (BASE_DIR p // "icon.ico") None
                       (Some ico_sizes))
    /\ is_Some (encode (working r) (BASE_DIR p // "icon.icns")
                       (Some "ICNS") (Some icns_sizes)).
Proof.
  intros Hrun. apply generate_icons_spec in Hrun.
  inversion Hrun as [| | | |b r0 r w1 Hfs Hdec Hconv Hem]; subst.
  exists b, r0, r. split; [done|]. split; [done|]. split; [done|].
  pose proof (fun s Hs => emitted_permitted _ _ _ _ _ s Hem Hs) as Hall.
  split.
  { intros q Hq. rewrite <- plan_paths in Hq.
    apply list_elem_of_fmap in Hq as (s & -> & Hs). by apply Hall. }
  unfold plan, png_targets in Hall. cbn [map app] in Hall.
  repeat split.
  - apply (Hall (png_step ("32x32.png", (32, 32)))). left.
  - apply (Hall (png_step ("128x128.png", (128, 128)))). right. left.
  - apply (Hall (png_step ("128x128@2x.png", (256, 256)))).
    do 2 right. left.
  - apply (Hall ico_step). do 3 right. left.
  - apply (Hall icns_step). do 4 right. left.
Qed.

(** X9.  The base directory is the script file's path without its last two
    components, followed by src-tauri and icons; a script path of two
    components or fewer gives /src-tauri/icons, the root being its own
    parent. *)
Theorem base_dir_drops_two p :
  BASE_DIR p
    = take (length (script_file p) - 2) (script_file p)
      ++ ["src-tauri"; "icons"]
  /\ ((length (script_file p) <= 2)%nat -> BASE_DIR p = ["src-tauri"; "icons"]).
Proof.
  assert (Hform : BASE_DIR p
            = take (length (script_file p) - 2) (script_file p)
              ++ ["src-tauri"; "icons"]).
  { unfold BASE_DIR, joinpath, parent. rewrite <- app_assoc. f_equal.
    rewrite !removelast_firstn_len, length_take, take_take. f_equal. lia. }
  split; [done|]. intros Hlen. rewrite Hform.
  by replace (length (script_file p) - 2)%nat with 0%nat by lia.
Qed.

(** X11.  The calls of a returning run, in order: open, convert, the
    upscale when the source is below the canvas size, then a resize and a
    save for each PNG target, the ICO save and the ICNS save, all on the
    working raster. *)
Theorem returning_run_calls p w w' b r0 r :
  fs w !! SOURCE_ICON p = Some b ->
  decode b = Some r0 ->
  convert r0 "RGBA" = Some r ->
  generate_icons p w = (Ok tt, w') ->
  calls w' = calls w ++
    [COpen (SOURCE_ICON p); CConvert r0 "RGBA"]
    ++ (if Z.max (fst (size r)) (snd (size r)) <? 512
        then [CResize r (512, 512) LANCZOS] else [])
    ++ [ CResize (working r) (32, 32) LANCZOS;
         CSave (resize (working r) (32, 32) LANCZOS)
               (BASE_DIR p // "32x32.png") None None;
         CResize (working r) (128, 128) LANCZOS;
         CSave (resize (working r) (128, 128) LANCZOS)
               (BASE_DIR p // "128x128.png") None None;
         CResize (working r) (256, 256) LANCZOS;
         CSave (resize (working r) (256, 256) LANCZOS)
               (BASE_DIR p // "128x128@2x.png") None None;
         CSave (working r) (BASE_DIR p // "icon.ico") None (Some ico_sizes);
         CSave (working r) (BASE_DIR p // "icon.icns") (Some "ICNS")
               (Some icns_sizes) ].
Proof.
  intros Hfs Hdec Hconv Hrun.
  destruct (run_tail _ _ _ _ _ _ _ Hfs Hdec Hconv Hrun)
    as (tail & Hcalls & _ & Htail).
  by rewrite Hcalls, (Htail eq_refl).
Qed.

Section Canvas.

Hypothesis resize_size : forall r sz filter, size (resize r sz filter) = sz.

(** X10.  No size the script asks for exceeds the larger dimension of the
    working raster.  A source below the canvas size becomes a square 512x512
    working raster, whatever its aspect ratio, so that every PNG target and
    every ICO and ICNS size fits in it in both dimensions. *)
Theorem canvas_covers_targets r sz :
  sz ∈ map snd png_targets ++ ico_sizes ++ icns_sizes ->
  (fst sz <= Z.max (fst (size (working r))) (snd (size (working r)))
   /\ snd sz <= Z.max (fst (size (working r))) (snd (size (working r))))
  /\ (Z.max (fst (size r)) (snd (size r)) < 512 ->
        size (working r) = (512, 512)
        /\ fst sz <= fst (size (working r))
        /\ snd sz <= snd (size (working r))).
Proof.
  intros Hsz.
  assert (Hle : fst sz <= 512 /\ snd sz <= 512).
  { unfold png_targets, ico_sizes, icns_sizes in Hsz. cbn [map app snd] in Hsz.
    repeat (apply elem_of_cons in Hsz as [->|Hsz]; [cbn; lia|]).
    by apply elem_of_nil in Hsz. }
  pose proof (working_large resize_size r) as Hlarge.
  split; [lia|]. intros Hlt. apply below_canvas_ge in Hlarge as _.
  assert (Hw : size (working r) = (512, 512)).
  { unfold working, below_canvas.
    apply Z.ltb_lt in Hlt. rewrite Hlt. apply resize_size. }
  rewrite Hw. cbn [fst snd]. split; [done|lia].
Qed.

End Canvas.

End Further.

Section FurtherRuns.
Import Tiny.

Lemma run_from_result (p : process) (w : world) res :
  fst (generate_icons p w) = res ->
  generate_icons p w = (res, snd (generate_icons p w)).
Proof. intros <-. by destruct (generate_icons p w). Qed.

Lemma confirmation_iff_returns_witness :
  stdout (snd small_run) = ["Generated icon assets in /proj/src-tauri/icons"].
Proof.
  destruct (confirmation_iff_returns proc (disk 64 64) (Ok tt) (snd small_run))
    as [(_ & Hout & _)|(e & He & _)].
  - exact TinyFacts.small_run_returns.
  - exact Hout.
  - discriminate He.
Defined.

Lemma only_outputs_change_witness :
  fs (snd small_run) !! (icons // "icon.png")
  = fs (disk 64 64) !! (icons // "icon.png").
Proof.
  destruct (only_outputs_change proc (disk 64 64) (Ok tt) (snd small_run))
    as [_ Hsrc].
  - exact TinyFacts.small_run_returns.
  - exact Hsrc.
Defined.

Lemma fault_leaves_prefix_witness :
  exists ds s rest,
    plan = ds ++ s :: rest
    /\ forall q, q ∈ map (step_path proc) ds ->
         is_Some (fs (snd (generate_icons proc stale_disk)) !! q).
Proof.
  destruct (fault_leaves_prefix proc stale_disk ImageError
              (snd (generate_icons proc stale_disk))
              (put_size (40000, 8)) (40000, 8) (40000, 8))
    as (ds & s & rest & Hplan & _ & _ & Hw & _).
  - vm_compute. reflexivity.
  - vm_compute. reflexivity.
  - vm_compute. reflexivity.
  - apply run_from_result. vm_compute. reflexivity.
  - exists ds, s, rest. split; [exact Hplan|exact Hw].
Defined.

Lemma undecodable_source_writes_nothing_witness :
  exists w',
    generate_icons proc (World {[ icons // "icon.png" := [] ]}
                               (fun _ => true) [] [])
    = (Raise ImageError, w').
Proof.
  destruct (undecodable_source_writes_nothing proc
              (World {[ icons // "icon.png" := [] ]} (fun _ => true) [] [])
              []) as (w' & Hrun & _).
  - vm_compute. reflexivity.
  - left. vm_compute. reflexivity.
  - exists w'. exact Hrun.
Defined.

Lemma outputs_from_source_only_witness :
  fs (snd small_run) !! (icons // "icon.ico")
  = fs (snd (generate_icons proc (snd small_run))) !! (icons // "icon.ico").
Proof.
  destruct (outputs_from_source_only proc (disk 64 64) (snd small_run)
              (snd small_run) (snd (generate_icons proc (snd small_run)))
              ltac:(vm_compute; reflexivity)
              TinyFacts.small_run_returns
              ltac:(apply run_from_result; vm_compute; reflexivity)
              (icons // "icon.ico")) as [Heq _].
  - apply (bool_decide_unpack _). vm_compute. reflexivity.
  - exact Heq.
Defined.

Lemma returns_only_if_witness :
  exists b r0 r,
    fs (disk 64 64) !! SOURCE_ICON proc = Some b
    /\ decode b = Some r0
    /\ convert r0 "RGBA" = Some r.
Proof.
  destruct (returns_only_if proc (disk 64 64) (snd small_run)
              TinyFacts.small_run_returns)
    as (b & r0 & r & Hfs & Hdec & Hconv & _).
  exists b, r0, r. split; [exact Hfs|]. split; [exact Hdec|exact Hconv].
Defined.

Lemma base_dir_drops_two_witness :
  BASE_DIR (Process ["generate_icons.py"] [] ∅) = ["src-tauri"; "icons"].
Proof.
  apply (proj2 (base_dir_drops_two (Process ["generate_icons.py"] [] ∅))).
  cbn. lia.
Defined.

Lemma returning_run_calls_witness :
  length (calls (snd small_run)) = 11%nat.
Proof.
  rewrite (returning_run_calls proc (disk 64 64) (snd small_run) small_src
             (64, 64) (64, 64)).
  - reflexivity.
  - vm_compute. reflexivity.
  - vm_compute. reflexivity.
  - vm_compute. reflexivity.
  - exact TinyFacts.small_run_returns.
Defined.

Lemma canvas_covers_targets_witness :
  size (working (100, 50)) = (512, 512)
  /\ 256 <= fst (size (working (100, 50))).
Proof.
  destruct (canvas_covers_targets TinyFacts.tiny_resize_size (100, 50)
              (256, 256)) as [_ Hbelow].
  - apply (bool_decide_unpack _). vm_compute. reflexivity.
  - destruct Hbelow as (Hsize & Hw & _).
    + vm_compute. reflexivity.
    + split; [exact Hsize|exact Hw].
Defined.

End FurtherRuns.
